(** * file_manager_integration: a shallow embedding of [file_managers.py]

    The development follows the Python module top-down: constants,
    the [string.Template] substitution used for action descriptors,
    [pathlib] paths, a small model of the file system calls the module
    makes, the class hierarchy of file managers, and its methods.
    Theorems about the methods come last. *)

From Stdlib Require Import Ascii String List ZArith Lia Bool.
From stdpp Require Import base option gmap strings.
Import ListNotations.
Open Scope string_scope.
Open Scope list_scope.

(** ** Constants *)

Definition ACTIONS : string := "actions".
Definition SCRIPTS : string := "scripts".

Definition nl : string := String (ascii_of_nat 10) "".

Definition NEMO_ACTION_TEMPLATE : string :=
  "[Nemo Action]" +:+ nl ++
  "Name=${name}" +:+ nl ++
  "Comment=${comment}" +:+ nl ++
  "Exec=${executable} %F" +:+ nl ++
  "Selection=S" +:+ nl ++
  "Extensions=${extensions};" +:+ nl ++
  "Quote=double" +:+ nl.

Definition KFM_ACTION_TEMPLATE : string :=
  "[Desktop Entry]" +:+ nl ++
  "Type=Service" +:+ nl ++
  "ServiceTypes=KonqPopupMenu/Plugin" +:+ nl ++
  "MimeType=${mimetypes};" +:+ nl ++
  "InitialPreference=99" +:+ nl ++
  "Actions=${identifier}" +:+ nl ++
  nl ++
  "[Desktop Action ${identifier}]" +:+ nl ++
  "Name=${name}" +:+ nl ++
  "Exec=${executable} %F" +:+ nl.

(** ** Python values held by the keyword dictionaries

    [**options] carries strings (names, comments, ...) and booleans (the
    force flags).  [value_str] is Python's [str()], [truthy] is the truth
    value test applied by [if]. *)

Inductive value : Type :=
| VStr (s : string)
| VBool (b : bool).

Definition value_str (v : value) : string :=
  match v with
  | VStr s => s
  | VBool true => "True"
  | VBool false => "False"
  end.

Definition truthy (v : value) : bool :=
  match v with
  | VStr "" => false
  | VStr _ => true
  | VBool b => b
  end.

Abbreviation kwargs := (gmap string value).

(** [options.get(key, False)] followed by the truth test. *)
Definition get_flag (options : kwargs) (key : string) : bool :=
  match options !! key with
  | Some v => truthy v
  | None => false
  end.

(** ** [string.Template]

    The class pattern matches the delimiter ["$"] followed by one of four
    alternatives, tried in this order: [escaped], a second delimiter;
    [named], an identifier; [braced], an identifier between braces;
    [invalid], nothing.  An identifier is one of [_], [a-z] followed by any
    number of [_], [a-z], [0-9], matched case-insensitively and in ASCII
    only.  Strings are sequences of bytes here (UTF-8); every character the
    pattern looks at is ASCII, so scanning bytes and scanning code points
    agree. *)

Module Template.

Definition is_lower (c : ascii) : bool :=
  (97 <=? nat_of_ascii c)%nat && (nat_of_ascii c <=? 122)%nat.
Definition is_upper (c : ascii) : bool :=
  (65 <=? nat_of_ascii c)%nat && (nat_of_ascii c <=? 90)%nat.
Definition is_digit (c : ascii) : bool :=
  (48 <=? nat_of_ascii c)%nat && (nat_of_ascii c <=? 57)%nat.

(** [[_a-z]] under [re.IGNORECASE] *)
Definition is_id_start (c : ascii) : bool :=
  Ascii.eqb c "_" || is_lower c || is_upper c.
(** [[_a-z0-9]] under [re.IGNORECASE] *)
Definition is_id_char (c : ascii) : bool :=
  is_id_start c || is_digit c.

(** The longest prefix made of identifier characters, and the rest. *)
Fixpoint span_id (s : string) : string * string :=
  match s with
  | String c s' =>
      if is_id_char c
      then let '(a, b) := span_id s' in (String c a, b)
      else ("", s)
  | EmptyString => ("", "")
  end.

(** An identifier at the head of [s] (greedy), if there is one. *)
Definition match_id (s : string) : option (string * string) :=
  match s with
  | String c _ => if is_id_start c then Some (span_id s) else None
  | EmptyString => None
  end.

(** What stands at a delimiter; [s] is the text after the ["$"]. *)
Inductive group : Type :=
| Escaped (rest : string)
| Named (id : string) (text : string) (rest : string)
| Invalid.

Definition match_after_delimiter (s : string) : group :=
  match s with
  | EmptyString => Invalid
  | String c s' =>
      if Ascii.eqb c "$" then Escaped s'
      else
        match match_id s with
        | Some (id, rest) => Named id ("$" +:+ id) rest
        | None =>
            if Ascii.eqb c "{" then
              match match_id s' with
              | Some (id, String c' rest) =>
                  if Ascii.eqb c' "}"
                  then Named id ("${" +:+ id +:+ "}") rest
                  else Invalid
              | _ => Invalid
              end
            else Invalid
        end
  end.

(** The text that follows a match. *)
Definition rest_of (g : group) : option string :=
  match g with
  | Escaped rest | Named _ _ rest => Some rest
  | Invalid => None
  end.

(** [pattern.sub(convert, template)] with the [convert] of
    [safe_substitute]: matches are found left to right, replacements are
    not scanned again.  [fuel] bounds the number of steps; the length of
    the text is always enough. *)
Fixpoint substitute (fuel : nat) (mapping : string -> option string)
    (s : string) : string :=
  match fuel with
  | O => s
  | S fuel' =>
      match s with
      | EmptyString => ""
      | String c s' =>
          if Ascii.eqb c "$" then
            match match_after_delimiter s' with
            | Escaped rest => String "$" (substitute fuel' mapping rest)
            | Named id text rest =>
                match mapping id with
                | Some v => v
                | None => text
                end +:+ substitute fuel' mapping rest
            | Invalid => String "$" (substitute fuel' mapping s')
            end
          else String c (substitute fuel' mapping s')
      end
  end.

Definition safe_substitute (template : string) (mapping : kwargs) : string :=
  substitute (String.length template)
    (fun key => value_str <$> mapping !! key) template.

(** [required_keys]: the named or braced group of every match. *)
Fixpoint keys (fuel : nat) (s : string) : list string :=
  match fuel with
  | O => []
  | S fuel' =>
      match s with
      | EmptyString => []
      | String c s' =>
          if Ascii.eqb c "$" then
            match match_after_delimiter s' with
            | Escaped rest => keys fuel' rest
            | Named id _ rest => id :: keys fuel' rest
            | Invalid => keys fuel' s'
            end
          else keys fuel' s'
      end
  end.

End Template.

(** ** [pathlib] paths

    A path is the tuple [parts] of a [PurePosixPath]: the root, if any,
    comes first, then the components.  Two paths are equal when their
    parts are. *)

Module Path.

Definition path : Type := list string.

(** The text between slashes. *)
Fixpoint split (s : string) : list string :=
  match s with
  | EmptyString => [""]
  | String c s' =>
      if Ascii.eqb c "/" then "" :: split s'
      else
        match split s' with
        | x :: r => String c x :: r
        | [] => [String c ""]
        end
  end.

Fixpoint leading_slashes (s : string) : nat :=
  match s with
  | String c s' => if Ascii.eqb c "/" then S (leading_slashes s') else 0
  | EmptyString => 0
  end.

(** Exactly two leading slashes are kept as a root of their own. *)
Definition root_of (s : string) : option string :=
  match leading_slashes s with
  | 0 => None
  | 2 => Some "//"
  | _ => Some "/"
  end.

Definition is_component (x : string) : bool :=
  negb (String.eqb x "") && negb (String.eqb x ".").

Definition parse (s : string) : path :=
  match root_of s with
  | Some r => r :: List.filter is_component (split s)
  | None => List.filter is_component (split s)
  end.

Definition is_root (x : string) : bool :=
  String.eqb x "/" || String.eqb x "//".

Definition is_absolute (p : path) : bool :=
  match p with
  | r :: _ => is_root r
  | [] => false
  end.

(** [p / s] *)
Definition joinpath (p : path) (s : string) : path :=
  let q := parse s in
  if is_absolute q then q else p ++ q.

Definition parent (p : path) : path :=
  match p with
  | [r] => if is_root r then p else []
  | _ => removelast p
  end.

Fixpoint join_slash (l : list string) : string :=
  match l with
  | [] => ""
  | [x] => x
  | x :: r => x +:+ "/" +:+ join_slash r
  end.

(** [str(p)] *)
Definition str (p : path) : string :=
  match p with
  | [] => "."
  | r :: rest => if is_root r then r +:+ join_slash rest else join_slash p
  end.

(** A string that names one entry of a directory: a single component
    that is neither a root nor the parent reference. *)
Definition is_name (s : string) : bool :=
  bool_decide (parse s = [s]) && negb (is_root s) && negb (String.eqb s "..").

End Path.

Export Path(path).

(** ** Exceptions *)

Inductive oserror : Type :=
| FileExistsError
| FileNotFoundError
| NotADirectoryError
| IsADirectoryError
| PermissionError
| ELOOP
| EINVAL
| ENOTEMPTY.

Inductive exn : Type :=
| ValueError (msg : string)
| KeyError (key : string)
| TypeError
| AttributeError (msg : string)
| NotImplementedError
| OSError (e : oserror) (filename : path)
| CalledProcessError (returncode : Z).

Inductive result (A : Type) : Type :=
| Ok (a : A)
| Raise (e : exn).
Arguments Ok {A} a.
Arguments Raise {A} e.

(** ** The file system

    The entries of the file system, each under its path, in the order in
    which a directory scan reports them.  A path stands for the entry
    stored under it: symbolic links are followed where the final component
    of a path is one ([stat]), not inside a path, and [..] is not
    interpreted. *)

Module FS.

Inductive node : Type :=
| File (content : string)
| Directory
| Symlink (target : path).

Definition filesystem : Type := list (path * node).

(** The entry itself, links not followed. *)
Fixpoint lstat (fs : filesystem) (p : path) : option node :=
  match fs with
  | [] => None
  | (q, n) :: fs' => if decide (q = p) then Some n else lstat fs' p
  end.

(** Where a link found at [p] leads. *)
Definition link_target (p t : path) : path :=
  if Path.is_absolute t then t else Path.parent p ++ t.

(** The number of links one lookup follows before giving up. *)
Definition MAXSYMLINKS : nat := 40.

Fixpoint follow (fuel : nat) (fs : filesystem) (p : path) : option path :=
  match lstat fs p with
  | Some (Symlink t) =>
      match fuel with
      | O => None
      | S fuel' => follow fuel' fs (link_target p t)
      end
  | _ => Some p
  end.

(** The path that [p] resolves to, [None] for a chain that is too long. *)
Definition realpath (fs : filesystem) (p : path) : option path :=
  follow MAXSYMLINKS fs p.

(** The entry reached, links followed. *)
Definition stat (fs : filesystem) (p : path) : option node :=
  match realpath fs p with
  | Some q => lstat fs q
  | None => None
  end.

(** [Path.exists()], [Path.is_dir()], [Path.is_symlink()] *)
Definition exists_ (fs : filesystem) (p : path) : bool :=
  match stat fs p with Some _ => true | None => false end.

Definition is_dir (fs : filesystem) (p : path) : bool :=
  match stat fs p with Some Directory => true | _ => false end.

Definition is_symlink (fs : filesystem) (p : path) : bool :=
  match lstat fs p with Some (Symlink _) => true | _ => false end.

(** [Path.readlink()] *)
Definition readlink (fs : filesystem) (p : path) : result path :=
  match lstat fs p with
  | Some (Symlink t) => Ok t
  | Some _ => Raise (OSError EINVAL p)
  | None => Raise (OSError FileNotFoundError p)
  end.

(** The entries directly inside [dir]. *)
Definition child_of (dir q : path) : bool :=
  bool_decide (Path.parent q = dir) && negb (bool_decide (q = dir)).

(** [Path.glob("*")]: every name matches the pattern. *)
Definition glob (fs : filesystem) (dir : path) : list path :=
  List.filter (child_of dir) (map fst fs).

(** What is wrong with the directory that is to hold [p], if anything. *)
Definition parent_error (fs : filesystem) (p : path) : option oserror :=
  match stat fs (Path.parent p) with
  | Some Directory => None
  | Some _ => Some NotADirectoryError
  | None => Some FileNotFoundError
  end.

Definition has_children (fs : filesystem) (dir : path) : bool :=
  existsb (fun q => bool_decide (dir `prefix_of` q) && negb (bool_decide (q = dir)))
    (map fst fs).

Fixpoint unlink (p : path) (fs : filesystem) : filesystem :=
  match fs with
  | [] => []
  | (q, n) :: fs' =>
      if decide (q = p) then unlink p fs' else (q, n) :: unlink p fs'
  end.

(** [Path.mkdir()] with its default arguments. *)
Definition mkdir (fs : filesystem) (p : path) : result filesystem :=
  match parent_error fs p with
  | Some e => Raise (OSError e p)
  | None =>
      match lstat fs p with
      | Some _ => Raise (OSError FileExistsError p)
      | None => Ok (fs ++ [(p, Directory)])
      end
  end.

(** [os.symlink(src, dst)] *)
Definition symlink (fs : filesystem) (src dst : path) : result filesystem :=
  match parent_error fs dst with
  | Some e => Raise (OSError e dst)
  | None =>
      match lstat fs dst with
      | Some _ => Raise (OSError FileExistsError dst)
      | None => Ok (fs ++ [(dst, Symlink src)])
      end
  end.

(** The new place of [q] when [src] moves to [dst]. *)
Definition rebase (src dst q : path) : path :=
  if bool_decide (src `prefix_of` q)
  then dst ++ drop (length src) q
  else q.

Definition move (src dst : path) (fs : filesystem) : filesystem :=
  map (fun '(q, n) => (rebase src dst q, n)) fs.

(** [os.rename(src, dst)]: an entry at [dst] is replaced when the kinds
    agree (a directory only by a directory, and only when empty); what
    lies below [src] moves with it. *)
Definition rename (fs : filesystem) (src dst : path) : result filesystem :=
  match lstat fs src with
  | None => Raise (OSError FileNotFoundError src)
  | Some n =>
      match parent_error fs dst with
      | Some e => Raise (OSError e dst)
      | None =>
          if decide (src = dst) then Ok fs
          else if bool_decide (src `prefix_of` dst) then Raise (OSError EINVAL src)
          else
            match n, lstat fs dst with
            | _, None => Ok (move src dst fs)
            | Directory, Some Directory =>
                if has_children fs dst then Raise (OSError ENOTEMPTY dst)
                else Ok (move src dst (unlink dst fs))
            | Directory, Some _ => Raise (OSError NotADirectoryError dst)
            | _, Some Directory => Raise (OSError IsADirectoryError dst)
            | _, Some _ => Ok (move src dst (unlink dst fs))
            end
      end
  end.

Fixpoint store (p : path) (n : node) (fs : filesystem) : filesystem :=
  match fs with
  | [] => [(p, n)]
  | (q, m) :: fs' =>
      if decide (q = p) then (q, n) :: fs' else (q, m) :: store p n fs'
  end.

(** [open(p, mode="wt")] followed by one [write] and the close: the
    file is created or truncated, through a link if [p] is one. *)
Definition write_text (fs : filesystem) (p : path) (content : string)
    : result filesystem :=
  match realpath fs p with
  | None => Raise (OSError ELOOP p)
  | Some q =>
      match parent_error fs q with
      | Some e => Raise (OSError e p)
      | None =>
          match lstat fs q with
          | Some Directory => Raise (OSError IsADirectoryError p)
          | _ => Ok (store q (File content) fs)
          end
      end
  end.

End FS.

Export FS(node, File, Directory, Symlink, filesystem).

(** ** The world and the effects of the module

    What the module can observe and change: the file system, the outcome
    of launching a program, and the record of what was done (file system
    calls, log records, launched programs), oldest first. *)

Inductive syscall : Type :=
| SIsDir (p : path)
| SExists (p : path)
| SMkdir (p : path)
| SGlob (p : path)
| SIsSymlink (p : path)
| SReadlink (p : path)
| SRename (src dst : path)
| SSymlink (src dst : path)
| SWrite (p : path) (content : string).

Inductive level : Type := DEBUG | WARNING.

Inductive event : Type :=
| FileSystem (c : syscall)
| Logging (l : level) (message : string)
| Subprocess (argv : list string).

(** How an attempt to run a program ends: with an exit status, or without
    the program having started. *)
Inductive completed : Type :=
| Exited (returncode : Z)
| LaunchFailed (e : oserror).

Record world : Type := World {
  files : filesystem;
  processes : list string -> completed;
  events : list event
}.

Definition M (A : Type) : Type := world -> result A * world.

Definition ret {A} (a : A) : M A := fun w => (Ok a, w).
Definition raise {A} (e : exn) : M A := fun w => (Raise e, w).
Definition bind {A B} (m : M A) (k : A -> M B) : M B :=
  fun w =>
    match m w with
    | (Ok a, w') => k a w'
    | (Raise e, w') => (Raise e, w')
    end.

Declare Scope py_scope.
Delimit Scope py_scope with py.
Notation "x <- m ;; k" := (bind m (fun x => k))
  (at level 100, m at next level, right associativity) : py_scope.
Notation "m ;; k" := (bind m (fun _ => k))
  (at level 100, right associativity) : py_scope.
Open Scope py_scope.

Definition emit (e : event) : M unit :=
  fun w => (Ok tt, World (files w) (processes w) (events w ++ [e])).

(** A call that only reads the file system. *)
Definition observe {A} (c : syscall) (f : filesystem -> A) : M A :=
  emit (FileSystem c) ;; fun w => (Ok (f (files w)), w).

(** A call that may fail, and may change the file system. *)
Definition perform (c : syscall) (f : filesystem -> result filesystem) : M unit :=
  emit (FileSystem c) ;;
  fun w =>
    match f (files w) with
    | Ok fs' => (Ok tt, World fs' (processes w) (events w))
    | Raise e => (Raise e, w)
    end.

(** A call that reads the file system and may fail. *)
Definition attempt {A} (c : syscall) (f : filesystem -> result A) : M A :=
  emit (FileSystem c) ;; fun w => (f (files w), w).

Definition path_is_dir (p : path) : M bool := observe (SIsDir p) (fun fs => FS.is_dir fs p).
Definition path_exists (p : path) : M bool := observe (SExists p) (fun fs => FS.exists_ fs p).
Definition path_is_symlink (p : path) : M bool :=
  observe (SIsSymlink p) (fun fs => FS.is_symlink fs p).
Definition path_glob (p : path) : M (list path) := observe (SGlob p) (fun fs => FS.glob fs p).
Definition path_readlink (p : path) : M path := attempt (SReadlink p) (fun fs => FS.readlink fs p).
Definition path_mkdir (p : path) : M unit := perform (SMkdir p) (fun fs => FS.mkdir fs p).
Definition os_rename (src dst : path) : M unit :=
  perform (SRename src dst) (fun fs => FS.rename fs src dst).
Definition os_symlink (src dst : path) : M unit :=
  perform (SSymlink src dst) (fun fs => FS.symlink fs src dst).
Definition write_file (p : path) (content : string) : M unit :=
  perform (SWrite p content) (fun fs => FS.write_text fs p content).

Definition logging_debug (message : string) : M unit := emit (Logging DEBUG message).
Definition logging_warning (message : string) : M unit := emit (Logging WARNING message).

(** [subprocess.run(argv, check=True)] with both output streams discarded. *)
Definition subprocess_run (argv : list string) : M unit :=
  emit (Subprocess argv) ;;
  fun w =>
    match processes w argv with
    | Exited 0 => (Ok tt, w)
    | Exited returncode => (Raise (CalledProcessError returncode), w)
    | LaunchFailed e => (Raise (OSError e (Path.parse (List.hd "" argv))), w)
    end.

(** [options[key]] *)
Definition getitem (options : kwargs) (key : string) : M value :=
  match options !! key with
  | Some v => ret v
  | None => raise (KeyError key)
  end.

(** [p / v]: only text can be joined to a path. *)
Definition truediv (p : path) (v : value) : M path :=
  match v with
  | VStr s => ret (Path.joinpath p s)
  | VBool _ => raise TypeError
  end.

(** ** The classes

    One constructor per class.  A class attribute a subclass does not set
    is the one of its base class: [Caja] and [Nemo] derive from
    [Nautilus], all others from [BaseFileManager]. *)

Inductive file_manager : Type :=
| BaseFileManager
| Nautilus
| Caja
| Nemo
| KdefileManager
| PcManFm
| Thunar.

Definition class_name (self : file_manager) : string :=
  match self with
  | BaseFileManager => "BaseFileManager"
  | Nautilus => "Nautilus"
  | Caja => "Caja"
  | Nemo => "Nemo"
  | KdefileManager => "KdefileManager"
  | PcManFm => "PcManFm"
  | Thunar => "Thunar"
  end.

Definition name (self : file_manager) : string :=
  match self with
  | BaseFileManager => "Unknown File Manager"
  | Nautilus => "Nautilus"
  | Caja => "Caja"
  | Nemo => "Nemo"
  | KdefileManager => "KDE file manager"
  | PcManFm => "PCManFM"
  | Thunar => "Thunar"
  end.

Definition config_path (self : file_manager) : path :=
  match self with
  | Nautilus => Path.parse ".local/share/nautilus"
  | Caja => Path.parse ".local/share/caja"
  | Nemo => Path.parse ".local/share/nemo"
  | BaseFileManager | KdefileManager | PcManFm | Thunar =>
      Path.parse ".local/share/unknown"
  end.

Definition actions_subdir (self : file_manager) : string := "actions".
Definition scripts_subdir (self : file_manager) : string := "scripts".

Definition capabilities (self : file_manager) : list string :=
  match self with
  | BaseFileManager => []
  | Nautilus => [SCRIPTS]
  | Caja | Nemo => [ACTIONS; SCRIPTS]
  | KdefileManager | PcManFm | Thunar => [ACTIONS]
  end.

Definition action_template (self : file_manager) : string :=
  match self with
  | Nemo => NEMO_ACTION_TEMPLATE
  | KdefileManager => KFM_ACTION_TEMPLATE
  | _ => ""
  end.

Definition executable (self : file_manager) : string :=
  match self with
  | Nautilus | Caja => "/usr/bin/nautilus"
  | Nemo => "/usr/bin/nemo"
  | BaseFileManager | KdefileManager | PcManFm | Thunar => "/bin/false"
  end.

(** [x in t] for a tuple of strings *)
Definition contains (t : list string) (x : string) : bool :=
  existsb (String.eqb x) t.

(** ** [BaseFileManager.__init__]: the attributes of an instance

    [actions_path] and [scripts_path] are set by the two conditionals of
    the constructor; [None] is an attribute that was not set. *)

Definition actions_path (self : file_manager) : option path :=
  if contains (capabilities self) ACTIONS
  then Some (Path.joinpath (config_path self) (actions_subdir self))
  else None.

Definition scripts_path (self : file_manager) : option path :=
  if contains (capabilities self) SCRIPTS
  then Some (Path.joinpath (config_path self) (scripts_subdir self))
  else None.

Definition no_attribute (self : file_manager) (attribute : string) : exn :=
  AttributeError
    ("'" +:+ class_name self +:+ "' object has no attribute '" +:+ attribute +:+ "'").

(** [self.actions_path], [self.scripts_path] *)
Definition get_actions_path (self : file_manager) : M path :=
  match actions_path self with
  | Some p => ret p
  | None => raise (no_attribute self "actions_path")
  end.

Definition get_scripts_path (self : file_manager) : M path :=
  match scripts_path self with
  | Some p => ret p
  | None => raise (no_attribute self "scripts_path")
  end.

(** ** Methods of [BaseFileManager] *)

Definition is_installed (self : file_manager) : M bool :=
  fun w =>
    match subprocess_run [executable self; "--version"] w with
    | (Raise (CalledProcessError _), w') => (Ok false, w')
    | (Raise e, w') => (Raise e, w')
    | (Ok _, w') => (Ok true, w')
    end.

Definition required_keys (self : file_manager) : list string :=
  Template.keys (String.length (action_template self)) (action_template self).

Definition not_installed (self : file_manager) : exn :=
  ValueError (name self +:+ " is probably not installed!").

Definition check_installation (self : file_manager) : M unit :=
  d <- path_is_dir (config_path self) ;;
  if negb d then raise (not_installed self) else ret tt.

Definition not_supported (kind : string) (self : file_manager) : exn :=
  ValueError (kind +:+ " not supported in " +:+ name self +:+ "!").

Definition check_actions_support (self : file_manager) : M unit :=
  if negb (contains (capabilities self) ACTIONS)
  then raise (not_supported "Actions" self)
  else check_installation self.

Definition check_scripts_support (self : file_manager) : M unit :=
  if negb (contains (capabilities self) SCRIPTS)
  then raise (not_supported "Scripts" self)
  else check_installation self.

(** ** [Nautilus.install_script] *)

Definition not_available (p : path) : exn :=
  ValueError (Path.str p +:+ " not available!").

Definition already_exists (p : path) : exn :=
  ValueError (Path.str p +:+ " already exists!").

Definition already_linked (single_path : path) : string :=
  "Found the source script already linked as " +:+ Path.str single_path
  +:+ ", but ignoring the situation.".

(** The [for] loop over the entries of the scripts directory; the result
    tells whether the loop left the method through its [return]. *)
Fixpoint scan_entries (absolute_source_path target_link_path : path)
    (options : kwargs) (entries : list path) : M bool :=
  match entries with
  | [] => ret false
  | single_path :: entries' =>
      is_link <- path_is_symlink single_path ;;
      if is_link then
        link <- path_readlink single_path ;;
        if bool_decide (link = absolute_source_path) then
          if get_flag options "force_rename_existing" then
            os_rename single_path target_link_path ;;
            ret true
          else
            logging_warning (already_linked single_path) ;;
            scan_entries absolute_source_path target_link_path options entries'
        else scan_entries absolute_source_path target_link_path options entries'
      else scan_entries absolute_source_path target_link_path options entries'
  end.

Definition Nautilus_install_script (self : file_manager)
    (absolute_source_path : path) (options : kwargs) : M unit :=
  check_scripts_support self ;;
  scripts_path <- get_scripts_path self ;;
  present <- path_is_dir scripts_path ;;
  (if negb present then
     if get_flag options "force_create_directories"
     then path_mkdir scripts_path
     else raise (not_available scripts_path)
   else ret tt) ;;
  display_name <- getitem options "display_name" ;;
  target_link_path <- truediv scripts_path display_name ;;
  logging_debug ("Target path: " +:+ Path.str target_link_path) ;;
  occupied <- path_exists target_link_path ;;
  if occupied then raise (already_exists target_link_path)
  else
    entries <- path_glob scripts_path ;;
    returned <- scan_entries absolute_source_path target_link_path options entries ;;
    if returned then ret tt
    else os_symlink absolute_source_path target_link_path.

(** ** [Nemo.install_action] *)

Definition Nemo_install_action (self : file_manager)
    (source_path : path) (options : kwargs) : M unit :=
  check_actions_support self ;;
  action_name <- getitem options "name" ;;
  let target_file := value_str action_name +:+ ".nemo_action" in
  let options := <["exec" := VStr (Path.str source_path)]> options in
  actions_path <- get_actions_path self ;;
  write_file (Path.joinpath actions_path target_file)
    (Template.safe_substitute NEMO_ACTION_TEMPLATE options).

(** ** Method lookup

    [install_script] is defined by [Nautilus] and inherited by [Caja] and
    [Nemo]; [install_action] is defined by every class but
    [BaseFileManager] and [Nautilus].  Calling a method on an instance of
    a class that has none fails at the attribute lookup. *)

Definition install_script (self : file_manager) (absolute_source_path : path)
    (options : kwargs) : M unit :=
  match self with
  | Nautilus | Caja | Nemo =>
      Nautilus_install_script self absolute_source_path options
  | BaseFileManager | KdefileManager | PcManFm | Thunar =>
      raise (no_attribute self "install_script")
  end.

Definition install_action (self : file_manager) (source_path : path)
    (options : kwargs) : M unit :=
  match self with
  | Nemo => Nemo_install_action self source_path options
  | Caja | KdefileManager | PcManFm | Thunar => raise NotImplementedError
  | BaseFileManager | Nautilus => raise (no_attribute self "install_action")
  end.

(** ** Definitions used to state the properties *)

(** What an entry of [NEMO_ACTION_TEMPLATE] shows for [key]: the value
    supplied, or the placeholder itself. *)
Definition field (options : kwargs) (key : string) : string :=
  match options !! key with
  | Some v => value_str v
  | None => "${" +:+ key +:+ "}"
  end.

(** [q] is a symbolic link whose text is [src]. *)
Definition links_to (fs : filesystem) (src q : path) : bool :=
  match FS.lstat fs q with
  | Some (Symlink t) => bool_decide (t = src)
  | _ => false
  end.

(** The record the loop of [install_script] leaves behind on a file
    system [fs], up to and including the renaming if there is one. *)
Fixpoint scan_events (fs : filesystem) (src tgt : path) (force : bool)
    (entries : list path) : list event :=
  match entries with
  | [] => []
  | q :: entries' =>
      FileSystem (SIsSymlink q) ::
      if FS.is_symlink fs q then
        FileSystem (SReadlink q) ::
        if links_to fs src q then
          if force then [FileSystem (SRename q tgt)]
          else Logging WARNING (already_linked q)
               :: scan_events fs src tgt force entries'
        else scan_events fs src tgt force entries'
      else scan_events fs src tgt force entries'
  end.

Fixpoint string_drop (n : nat) (s : string) : string :=
  match n, s with
  | S n', String _ s' => string_drop n' s'
  | _, _ => s
  end.

Definition ends_with (suffix s : string) : bool :=
  String.eqb (string_drop (String.length s - String.length suffix) s) suffix.

Definition is_symlink_call (e : event) : bool :=
  match e with
  | FileSystem (SSymlink _ _) => true
  | _ => false
  end.

(** How [install_script] ends once its loop is over. *)
Definition finish (src tgt : path) (r : result bool * world) : result unit * world :=
  match r with
  | (Ok true, w') => (Ok tt, w')
  | (Ok false, w') => os_symlink src tgt w'
  | (Raise e, w') => (Raise e, w')
  end.

(** The symbolic links to [src] among the entries of [dir], in the order
    of the scan. *)
Definition links_in (fs : filesystem) (dir src : path) : list path :=
  List.filter (links_to fs src) (FS.glob fs dir).

(** The messages of the errors [install_script] raises by itself. *)
Definition install_script_message (msg : string) : bool :=
  ends_with " is probably not installed!" msg
  || ends_with " not available!" msg
  || ends_with " already exists!" msg.

(** The text of a Nemo action file, entry by entry. *)
Definition nemo_action (options : kwargs) : string :=
  "[Nemo Action]" +:+ nl +:+
  "Name=" +:+ field options "name" +:+ nl +:+
  "Comment=" +:+ field options "comment" +:+ nl +:+
  "Exec=" +:+ field options "executable" +:+ " %F" +:+ nl +:+
  "Selection=S" +:+ nl +:+
  "Extensions=" +:+ field options "extensions" +:+ ";" +:+ nl +:+
  "Quote=double" +:+ nl.

(** Where [Nemo.install_action] writes. *)
Definition nemo_action_file (action_name : value) : path :=
  Path.joinpath (config_path Nemo ++ ["actions"])
    (value_str action_name +:+ ".nemo_action").

(** The exceptions the installers let out: any exception but a
    [ValueError] with a message of another kind. *)
Definition expected_error (e : exn) : bool :=
  match e with
  | ValueError msg => install_script_message msg
  | _ => true
  end.

(** Every exception that [m] raises satisfies [P]. *)
Definition raises_only {A} (P : exn -> bool) (m : M A) : Prop :=
  forall w e w', m w = (Raise e, w') -> P e = true.

(** ** A sample home directory

    Nemo's configuration with both of its directories, and a script to
    integrate.  Paths are relative to the working directory, as
    [config_path] is. *)

Module Sample.

Definition script : path := Path.parse "/home/u/tools/rename.sh".
Definition missing_script : path := Path.parse "/home/u/tools/gone.sh".

Definition nemo_scripts : path := Path.parse ".local/share/nemo/scripts".

Definition home : filesystem :=
  [ (Path.parse ".local", Directory);
    (Path.parse ".local/share", Directory);
    (Path.parse ".local/share/nemo", Directory);
    (Path.parse ".local/share/nemo/actions", Directory);
    (Path.parse ".local/share/nemo/scripts", Directory);
    (Path.parse ".local/share/nautilus", Directory);
    (Path.parse ".local/share/nautilus/scripts", Directory);
    (script, File "#!/bin/sh") ].

(** The script is already linked as [Rename]. *)
Definition home_linked : filesystem :=
  home ++ [(nemo_scripts ++ ["Rename"], Symlink script)].


(** No program can be launched: none of the file managers is there. *)
Definition nothing_installed (argv : list string) : completed :=
  LaunchFailed FileNotFoundError.

Definition world_of (fs : filesystem) : world := World fs nothing_installed [].

Definition batch_rename : kwargs := {[ "display_name" := VStr "Batch Rename" ]}.

Definition batch_rename_forced : kwargs :=
  {[ "display_name" := VStr "Batch Rename";
     "force_rename_existing" := VBool true ]}.

Definition action : kwargs :=
  {[ "name" := VStr "Batch Rename";
     "comment" := VStr "Rename many files";
     "extensions" := VStr "jpg;png" ]}.

Definition action_without_comment : kwargs :=
  {[ "name" := VStr "Batch Rename"; "extensions" := VStr "jpg;png" ]}.

End Sample.

(** ** More definitions used to state properties *)

(** The messages logged at warning level, oldest first. *)
Definition logged_warnings (evs : list event) : list string :=
  flat_map (fun e => match e with Logging WARNING m => [m] | _ => [] end) evs.

(** [install_script] from the lookup of the display name on, over the
    file system [fs] that the directory step has left: the outcome and
    the world it ends in. *)
Definition link_phase (src dir : path) (options : kwargs)
    (fs : filesystem) (pr : list string -> completed) (ev : list event)
    : result unit * world :=
  match options !! "display_name" with
  | None => (Raise (KeyError "display_name"), World fs pr ev)
  | Some (VBool _) => (Raise TypeError, World fs pr ev)
  | Some (VStr s) =>
      let tgt := Path.joinpath dir s in
      let ev' := ev ++ [Logging DEBUG ("Target path: " +:+ Path.str tgt);
                        FileSystem (SExists tgt)] in
      if FS.exists_ fs tgt then (Raise (already_exists tgt), World fs pr ev')
      else finish src tgt
             (scan_entries src tgt options (FS.glob fs dir)
                (World fs pr (ev' ++ [FileSystem (SGlob dir)])))
  end.

(** The help texts of the module, one for each key a user may be
    asked for. *)
Definition HELP : gmap string string :=
  {[ "name" := "The desired name of the action";
     "comment" := "Comment for the action (Nemo, …)";
     "executable" := "Executable path";
     "extensions" := "Semicolon-separated list of handled file extensions (Nemo, …)";
     "mimetypes" := "Semicolon-separated list of handled file mime types (KDE file managers, …)";
     "identifier" := "Internal identifier in the desktop file (KDE file managers, …)" ]}.

(** ** More sample data

    Variations of the sample home directory, and keyword dictionaries
    for the calls made on them. *)

Module Cases.

(** Nemo is there, but has neither a scripts nor an actions directory. *)
Definition home_bare : filesystem :=
  [ (Path.parse ".local", Directory);
    (Path.parse ".local/share", Directory);
    (Path.parse ".local/share/nemo", Directory);
    (Sample.script, File "#!/bin/sh") ].

(** A regular file is where the scripts directory should be. *)
Definition home_blocked : filesystem :=
  home_bare ++ [(Sample.nemo_scripts, File "")].

(** The script is linked twice, as [Rename] and as [Rename 2]. *)
Definition home_two_links : filesystem :=
  Sample.home
  ++ [(Sample.nemo_scripts ++ ["Rename"], Symlink Sample.script);
      (Sample.nemo_scripts ++ ["Rename 2"], Symlink Sample.script)].

(** An action file of an earlier installation. *)
Definition home_action : filesystem :=
  Sample.home
  ++ [(Path.parse ".local/share/nemo/actions/Batch Rename.nemo_action", File "old")].


Definition create_dirs : kwargs :=
  {[ "display_name" := VStr "Batch Rename";
     "force_create_directories" := VBool true ]}.

Definition only_create : kwargs := {[ "force_create_directories" := VBool true ]}.

Definition rename_forced : kwargs :=
  {[ "display_name" := VStr "Rename"; "force_rename_existing" := VBool true ]}.


(** A display name with a slash in it. *)
Definition slashed : kwargs := {[ "display_name" := VStr "Convert jpg/png" ]}.

Definition slashed_forced : kwargs :=
  {[ "display_name" := VStr "Convert jpg/png"; "force_rename_existing" := VBool true ]}.

(** An action that has no name. *)
Definition action_without_name : kwargs :=
  {[ "comment" := VStr "Rename many files"; "extensions" := VStr "jpg;png" ]}.

(** [/bin/false] is there and fails, as it does; nothing else is. *)
Definition only_false (argv : list string) : completed :=
  if bool_decide (argv = ["/bin/false"; "--version"])
  then Exited 1
  else LaunchFailed FileNotFoundError.

End Cases.

(** * Properties *)

(** ** The building blocks on small inputs *)

Example substitute_ex1 :
  Template.safe_substitute "a $x ${y} $$ $ ${z ${1} $_a1-"
    {[ "x" := VStr "1"; "z" := VBool true; "_a1" := VStr "${x}" ]}
  = "a 1 ${y} $ $ ${z ${1} ${x}-".
Proof. vm_compute. reflexivity. Qed.

Example required_keys_ex :
  required_keys Nemo = ["name"; "comment"; "executable"; "extensions"] /\
  required_keys KdefileManager
  = ["mimetypes"; "identifier"; "identifier"; "name"; "executable"] /\
  required_keys Thunar = [].
Proof. vm_compute. auto. Qed.

Example parse_ex1 : Path.parse ".local/share/nemo" = [".local"; "share"; "nemo"].
Proof. reflexivity. Qed.

Example parse_ex2 : Path.parse "/home//u/./x.sh" = ["/"; "home"; "u"; "x.sh"].
Proof. reflexivity. Qed.

Example str_ex1 : Path.str ["/"; "home"; "u"; "x.sh"] = "/home/u/x.sh".
Proof. reflexivity. Qed.

Example str_ex2 :
  Path.str (Path.joinpath [".local"; "share"] "a b") = ".local/share/a b".
Proof. reflexivity. Qed.

Example is_name_ex :
  map Path.is_name ["Batch Rename"; "a/b"; ".."; "."; ""; ".x"; "/"]
  = [true; false; false; false; false; true; false].
Proof. vm_compute. reflexivity. Qed.

(** The example of the specification: a script installed for Nemo, the
    scripts directory being there. *)
Example install_script_ex :
  let r := install_script Nemo Sample.script Sample.batch_rename
             (Sample.world_of Sample.home) in
  fst r = Ok tt /\
  files (snd r)
  = Sample.home
    ++ [(Path.parse ".local/share/nemo/scripts/Batch Rename", Symlink Sample.script)].
Proof. vm_compute. split; reflexivity. Qed.

(** The declared but unwritten installers. *)
Example install_action_not_implemented :
  forall (src : path) (options : kwargs) (w : world),
    Forall (fun self => install_action self src options w = (Raise NotImplementedError, w))
      [Caja; KdefileManager; PcManFm; Thunar].
Proof. intros. repeat constructor. Qed.

(** ** Lists and strings *)

Lemma find_unique {A} (P : A -> bool) (l : list A) (x : A) :
  In x l -> P x = true -> (forall y, In y l -> P y = true -> y = x) ->
  List.find P l = Some x.
Proof.
  induction l as [|a l IH]; simpl; [tauto|].
  intros Hin Hx Hu. destruct (P a) eqn:E.
  - f_equal. apply Hu; auto.
  - destruct Hin as [->|Hin]; [congruence|]. apply IH; auto.
Qed.


Lemma filter_map_commute {A} (P Q : A -> bool) (f : A -> A) (l : list A) :
  (forall x, In x l -> Q (f x) = P x) ->
  List.filter Q (map f l) = map f (List.filter P l).
Proof.
  induction l as [|a l IH]; simpl; [reflexivity|]. intros H.
  rewrite (H a) by auto. rewrite IH by auto.
  destruct (P a); reflexivity.
Qed.

Lemma filter_agree {A} (P Q : A -> bool) (l : list A) :
  (forall x, In x l -> Q x = P x) -> List.filter Q l = List.filter P l.
Proof.
  induction l as [|a l IH]; simpl; [reflexivity|]. intros H.
  rewrite (H a) by auto. rewrite IH by auto. reflexivity.
Qed.

Lemma snoc_length_inj {A} (l : list A) (x y : A) (r : list A) :
  l ++ [y] = (l ++ [x]) ++ r -> r = [] /\ x = y.
Proof.
  intros E. assert (r = []) as ->.
  { apply (f_equal length) in E. rewrite !length_app in E. simpl in E.
    destruct r; [reflexivity|simpl in E; lia]. }
  rewrite app_nil_r in E. apply app_inj_tail in E as [_ E]. auto.
Qed.

Lemma string_length_app (a b : string) :
  String.length (a +:+ b) = String.length a + String.length b.
Proof. induction a as [|c a IH]; simpl; [reflexivity|]. rewrite IH. reflexivity. Qed.

Lemma string_drop_app (a b : string) : string_drop (String.length a) (a +:+ b) = b.
Proof. induction a as [|c a IH]; simpl; [destruct b; reflexivity|exact IH]. Qed.

Lemma ends_with_app (a suffix : string) : ends_with suffix (a +:+ suffix) = true.
Proof.
  unfold ends_with. rewrite string_length_app.
  replace (String.length a + String.length suffix - String.length suffix)
    with (String.length a) by lia.
  rewrite string_drop_app. apply String.eqb_refl.
Qed.

Lemma contains_elem_of (t : list string) (x : string) :
  contains t x = true <-> x ∈ t.
Proof.
  unfold contains. rewrite existsb_exists. split.
  - intros (y & Hy & E). apply String.eqb_eq in E. subst. by apply list_elem_of_In.
  - intros H. exists x. split; [by apply list_elem_of_In|apply String.eqb_refl].
Qed.

(** ** The template engine *)

Module TemplateFacts.
Import Template.

Lemma span_id_length s : String.length (snd (span_id s)) <= String.length s.
Proof.
  induction s as [|c s IH]; simpl; [lia|].
  destruct (is_id_char c); simpl; [|lia].
  destruct (span_id s) as [a b]; simpl in *. lia.
Qed.

(** An identifier is not empty. *)
Lemma match_id_length s id rest :
  match_id s = Some (id, rest) -> String.length rest < String.length s.
Proof.
  destruct s as [|c t]; simpl; [discriminate|].
  destruct (is_id_start c) eqn:E; [|discriminate].
  unfold is_id_char. rewrite E. simpl.
  pose proof (span_id_length t) as L.
  destruct (span_id t) as [a b]. simpl in L.
  intros [= _ <-]. lia.
Qed.

(** Every match consumes at least the character after the delimiter. *)
Lemma match_after_delimiter_length s rest :
  rest_of (match_after_delimiter s) = Some rest ->
  String.length rest < String.length s.
Proof.
  destruct s as [|c s]; [discriminate|].
  unfold match_after_delimiter.
  destruct (Ascii.eqb c "$"); [intros [= <-]; simpl; lia|].
  destruct (match_id (String c s)) as [[id r]|] eqn:E.
  { apply match_id_length in E. intros [= <-]. exact E. }
  destruct (Ascii.eqb c "{"); [|discriminate].
  destruct (match_id s) as [[id r]|] eqn:E'; [|discriminate].
  apply match_id_length in E'.
  destruct r as [|c' r]; [discriminate|].
  destruct (Ascii.eqb c' "}"); [|discriminate].
  intros [= <-]. simpl in *. lia.
Qed.

(** The substitution is complete with the fuel [safe_substitute] gives
    it: more fuel changes nothing. *)
Lemma substitute_fuel mapping n n' s :
  String.length s <= n -> String.length s <= n' ->
  substitute n mapping s = substitute n' mapping s.
Proof.
  revert n' s. induction n as [|n IH]; intros n' s Hn Hn'.
  - destruct s; [|simpl in Hn; lia]. destruct n'; reflexivity.
  - destruct n' as [|n'].
    { destruct s; [reflexivity|simpl in Hn'; lia]. }
    destruct s as [|c s]; [reflexivity|].
    simpl in Hn, Hn'.
    assert (Hc : forall t, String.length t <= String.length s ->
                   substitute n mapping t = substitute n' mapping t).
    { intros t Ht. apply IH; lia. }
    simpl.
    destruct (Ascii.eqb c "$").
    + pose proof (match_after_delimiter_length s) as L.
      destruct (match_after_delimiter s) as [rest|id text rest|]; simpl in L.
      * rewrite Hc; [reflexivity|]. specialize (L _ eq_refl). lia.
      * rewrite Hc; [reflexivity|]. specialize (L _ eq_refl). lia.
      * rewrite Hc; [reflexivity|lia].
    + rewrite Hc; [reflexivity|lia].
Qed.

(** A text without delimiter is left as it is. *)
Lemma substitute_plain mapping n s :
  String.length s <= n ->
  (forall c, In c (list_ascii_of_string s) -> Ascii.eqb c "$" = false) ->
  substitute n mapping s = s.
Proof.
  revert s. induction n as [|n IH]; intros s Hn Hs; [reflexivity|].
  destruct s as [|c s]; [reflexivity|]. simpl in *.
  rewrite (Hs c) by auto. f_equal. apply IH; [lia|auto].
Qed.

End TemplateFacts.

Lemma substitute_nemo (n : nat) (f : string -> option string) :
  String.length NEMO_ACTION_TEMPLATE <= n ->
  Template.substitute n f NEMO_ACTION_TEMPLATE =
  "[Nemo Action]" +:+ nl +:+
  "Name=" +:+ default "${name}" (f "name") +:+ nl +:+
  "Comment=" +:+ default "${comment}" (f "comment") +:+ nl +:+
  "Exec=" +:+ default "${executable}" (f "executable") +:+ " %F" +:+ nl +:+
  "Selection=S" +:+ nl +:+
  "Extensions=" +:+ default "${extensions}" (f "extensions") +:+ ";" +:+ nl +:+
  "Quote=double" +:+ nl.
Proof.
  intros Hn.
  rewrite (TemplateFacts.substitute_fuel f n (String.length NEMO_ACTION_TEMPLATE))
    by auto.
  vm_compute.
  destruct (f "name"), (f "comment"), (f "executable"), (f "extensions"); reflexivity.
Qed.

Lemma safe_substitute_nemo (options : kwargs) :
  Template.safe_substitute NEMO_ACTION_TEMPLATE options = nemo_action options.
Proof.
  unfold Template.safe_substitute. rewrite substitute_nemo by reflexivity.
  unfold nemo_action, field.
  destruct (options !! "name"), (options !! "comment"),
    (options !! "executable"), (options !! "extensions"); reflexivity.
Qed.

Lemma field_insert_ne (options : kwargs) (k key : string) (v : value) :
  k <> key -> field (<[k := v]> options) key = field options key.
Proof. intros H. unfold field. rewrite lookup_insert_ne by assumption. reflexivity. Qed.

Lemma nemo_action_exec (options : kwargs) (v : value) :
  nemo_action (<["exec" := v]> options) = nemo_action options.
Proof. unfold nemo_action. rewrite !field_insert_ne by discriminate. reflexivity. Qed.

(** ** The file system *)

Module FSFacts.
Import FS.

(** *** Paths below a directory *)

Lemma parent_snoc (dir : path) (x : string) :
  dir <> [] -> Path.parent (dir ++ [x]) = dir.
Proof.
  intros Hd.
  assert (E : Path.parent (dir ++ [x]) = removelast (dir ++ [x])).
  { unfold Path.parent. destruct dir as [|a [|b dir]]; [congruence| |]; reflexivity. }
  rewrite E. apply removelast_last.
Qed.

Lemma snoc_neq (dir : path) (x y : string) : x <> y -> dir ++ [x] <> dir ++ [y].
Proof. intros N E. apply app_inj_tail in E as [_ E]. contradiction. Qed.

Lemma snoc_not_prefix (dir : path) (x y : string) :
  x <> y -> ~ (dir ++ [x]) `prefix_of` (dir ++ [y]).
Proof. intros N [r E]. apply snoc_length_inj in E as [_ E]. contradiction. Qed.

Lemma child_of_snoc (dir : path) (x : string) :
  dir <> [] -> child_of dir (dir ++ [x]) = true.
Proof.
  intros Hd. unfold child_of. rewrite parent_snoc by assumption.
  rewrite bool_decide_eq_true_2 by reflexivity. simpl.
  apply negb_true_iff, bool_decide_eq_false_2.
  intros E. apply (f_equal length) in E. rewrite length_app in E. simpl in E. lia.
Qed.

Lemma child_of_inv (dir q : path) :
  dir <> [] -> child_of dir q = true -> exists x, q = dir ++ [x].
Proof.
  intros Hd H. unfold child_of in H. apply andb_prop in H as [H1 H2].
  apply bool_decide_eq_true in H1. apply negb_true_iff, bool_decide_eq_false in H2.
  unfold Path.parent in H1.
  destruct q as [|a q]; [simpl in H1; congruence|].
  destruct q as [|b q].
  - destruct (Path.is_root a); congruence.
  - exists (List.last (a :: b :: q) ""). rewrite <- H1.
    apply app_removelast_last. discriminate.
Qed.

Lemma child_of_length dir q :
  dir <> [] -> child_of dir q = true -> length q = S (length dir).
Proof.
  intros Hd H. apply child_of_inv in H as [x ->]; [|assumption].
  rewrite length_app. simpl. lia.
Qed.

(** *** Looking up *)

Lemma lstat_Some_In fs p n : lstat fs p = Some n -> In p (map fst fs).
Proof.
  induction fs as [|[q m] fs IH]; simpl; [discriminate|].
  destruct (decide (q = p)); [auto|]. intros H. right. auto.
Qed.

Lemma lstat_None_In fs p : lstat fs p = None -> ~ In p (map fst fs).
Proof.
  induction fs as [|[q m] fs IH]; simpl; [tauto|].
  destruct (decide (q = p)); [discriminate|]. intros H [E|I]; [congruence|].
  exact (IH H I).
Qed.

Lemma In_lstat_Some fs p : In p (map fst fs) -> exists n, lstat fs p = Some n.
Proof.
  induction fs as [|[q m] fs IH]; simpl; [tauto|].
  destruct (decide (q = p)); [eauto|]. intros [E|I]; [congruence|auto].
Qed.

Lemma stat_absent fs p : lstat fs p = None -> stat fs p = None.
Proof.
  intros H. unfold stat, realpath, MAXSYMLINKS. simpl. rewrite H. exact H.
Qed.

Lemma exists_absent fs p : lstat fs p = None -> exists_ fs p = false.
Proof. intros H. unfold exists_. rewrite stat_absent; auto. Qed.

Lemma is_dir_parent_error fs dir x :
  dir <> [] -> is_dir fs dir = true -> parent_error fs (dir ++ [x]) = None.
Proof.
  intros Hd H. unfold parent_error. rewrite parent_snoc by assumption.
  unfold is_dir in H. destruct (stat fs dir) as [[]|]; congruence.
Qed.

(** *** Scanning a directory *)

Lemma In_glob fs dir x n :
  dir <> [] -> lstat fs (dir ++ [x]) = Some n -> In (dir ++ [x]) (glob fs dir).
Proof.
  intros Hd H. unfold glob. apply filter_In. split.
  - eapply lstat_Some_In; eassumption.
  - apply child_of_snoc; assumption.
Qed.

Lemma glob_inv fs dir q :
  dir <> [] -> In q (glob fs dir) -> exists x, q = dir ++ [x].
Proof.
  intros Hd H. unfold glob in H. apply filter_In in H as [_ H].
  eapply child_of_inv; eassumption.
Qed.

Lemma In_glob_keys fs dir q : In q (glob fs dir) -> In q (map fst fs).
Proof. unfold glob. intros H. apply filter_In in H. tauto. Qed.

(** *** A new entry *)

Lemma lstat_app fs p q n :
  lstat (fs ++ [(q, n)]) p =
  match lstat fs p with
  | Some m => Some m
  | None => if decide (q = p) then Some n else None
  end.
Proof.
  induction fs as [|[r m] fs IH]; simpl; [reflexivity|].
  destruct (decide (r = p)); [reflexivity|exact IH].
Qed.

Lemma glob_app fs dir q n :
  glob (fs ++ [(q, n)]) dir = glob fs dir ++ (if child_of dir q then [q] else []).
Proof.
  unfold glob. rewrite List.map_app, List.filter_app. simpl.
  destruct (child_of dir q); reflexivity.
Qed.

(** *** Renaming inside a directory *)

Lemma rebase_same_length (src dst q : path) :
  length q = length src ->
  rebase src dst q = if decide (q = src) then dst else q.
Proof.
  intros L. unfold rebase.
  destruct (decide (q = src)) as [->|N].
  - rewrite bool_decide_eq_true_2 by reflexivity.
    rewrite drop_all. apply app_nil_r.
  - rewrite bool_decide_eq_false_2; [reflexivity|].
    intros [r ->]. rewrite length_app in L.
    destruct r; [rewrite app_nil_r in N; congruence|simpl in L; lia].
Qed.

Lemma rebase_eq_inv (src dst q k : path) :
  length k = length src -> length dst = length src ->
  rebase src dst q = k -> length q = length src.
Proof.
  intros Lk Ld. unfold rebase.
  destruct (bool_decide (src `prefix_of` q)) eqn:P.
  - apply bool_decide_eq_true in P as [r ->].
    rewrite drop_app_length. intros <-.
    rewrite !length_app in *. lia.
  - intros ->. exact Lk.
Qed.

(** The entries of the directory after [src] was renamed to the free
    name [dst]. *)
Lemma lstat_move (src dst k : path) fs :
  length k = length src -> length dst = length src -> src <> dst ->
  lstat fs dst = None ->
  lstat (move src dst fs) k =
  if decide (k = dst) then lstat fs src
  else if decide (k = src) then None
  else lstat fs k.
Proof.
  intros Lk Ld Hne. induction fs as [|[q n] fs IH]; simpl.
  { intros _. repeat case_decide; reflexivity. }
  destruct (decide (q = dst)) as [->|Hq]; [discriminate|]. intros Hd.
  specialize (IH Hd).
  destruct (decide (rebase src dst q = k)) as [E|E].
  - pose proof (rebase_eq_inv _ _ _ _ Lk Ld E) as Lq.
    rewrite rebase_same_length in E by assumption.
    destruct (decide (q = src)) as [->|Hs]; subst k;
      repeat case_decide; congruence.
  - rewrite IH.
    destruct (decide (k = dst)) as [->|Hkd].
    + destruct (decide (q = src)) as [->|Hs]; [|reflexivity].
      exfalso. apply E. rewrite rebase_same_length by reflexivity.
      rewrite decide_True; reflexivity.
    + destruct (decide (k = src)) as [->|Hks]; [reflexivity|].
      destruct (decide (q = k)) as [->|Hqk]; [|reflexivity].
      exfalso. apply E. rewrite rebase_same_length by assumption.
      rewrite decide_False; [reflexivity|assumption].
Qed.

Lemma child_of_rebase dir a b q :
  dir <> [] ->
  child_of dir (rebase (dir ++ [a]) (dir ++ [b]) q) = child_of dir q.
Proof.
  intros Hd. unfold rebase.
  destruct (bool_decide (dir ++ [a] `prefix_of` q)) eqn:P; [|reflexivity].
  apply bool_decide_eq_true in P as [r ->].
  rewrite drop_app_length.
  destruct r as [|c r].
  { rewrite !app_nil_r. rewrite !child_of_snoc by assumption. reflexivity. }
  transitivity false.
  - destruct (child_of dir ((dir ++ [b]) ++ c :: r)) eqn:C; [|reflexivity].
    apply child_of_length in C; [|assumption].
    rewrite !length_app in C. simpl in C. lia.
  - destruct (child_of dir ((dir ++ [a]) ++ c :: r)) eqn:C; [|reflexivity].
    apply child_of_length in C; [|assumption].
    rewrite !length_app in C. simpl in C. lia.
Qed.

Lemma glob_move fs dir a b :
  dir <> [] ->
  glob (move (dir ++ [a]) (dir ++ [b]) fs) dir
  = map (rebase (dir ++ [a]) (dir ++ [b])) (glob fs dir).
Proof.
  intros Hd. unfold glob, move.
  induction fs as [|[q n] fs IH]; simpl; [reflexivity|].
  rewrite child_of_rebase by assumption.
  destruct (child_of dir q); simpl; rewrite IH; reflexivity.
Qed.

(** Renaming a link to a free name of its directory. *)
Lemma rename_to_free fs dir x y n :
  dir <> [] -> is_dir fs dir = true ->
  lstat fs (dir ++ [x]) = Some n ->
  lstat fs (dir ++ [y]) = None ->
  rename fs (dir ++ [x]) (dir ++ [y]) = Ok (move (dir ++ [x]) (dir ++ [y]) fs).
Proof.
  intros Hne Hd Hx Hy. unfold rename. rewrite Hx.
  rewrite is_dir_parent_error by assumption.
  assert (N : x <> y) by congruence.
  rewrite decide_False by (apply snoc_neq; assumption).
  rewrite bool_decide_eq_false_2 by (apply snoc_not_prefix; assumption).
  rewrite Hy. destruct n; reflexivity.
Qed.


(** *** Writing a file *)

Lemma lstat_store fs q n k :
  lstat (store q n fs) k = if decide (q = k) then Some n else lstat fs k.
Proof.
  induction fs as [|[r m] fs IH]; simpl.
  - destruct (decide (q = k)); reflexivity.
  - destruct (decide (r = q)) as [->|N]; simpl.
    + destruct (decide (q = k)); reflexivity.
    + destruct (decide (r = k)) as [->|N'].
      * rewrite decide_False by congruence. reflexivity.
      * exact IH.
Qed.

(** Writing where a chain of links ends does not change the chain. *)
Lemma follow_store fuel fs p q c :
  follow fuel fs p = Some q ->
  follow fuel (store q (File c) fs) p = Some q.
Proof.
  revert p. induction fuel as [|fuel IH]; intros p; simpl;
    rewrite lstat_store; destruct (decide (q = p)) as [->|N].
  - destruct (lstat fs p) as [[| |t]|] eqn:E; try discriminate; reflexivity.
  - destruct (lstat fs p) as [[| |t]|] eqn:E; try discriminate;
      intros [= ->]; congruence.
  - reflexivity.
  - destruct (lstat fs p) as [[| |t]|] eqn:E.
    1,2,4: intros [= ->]; congruence.
    apply IH.
Qed.

(** Reading back what was written, through the same path. *)
Lemma stat_write_text fs p c fs' :
  write_text fs p c = Ok fs' -> stat fs' p = Some (File c).
Proof.
  unfold write_text, stat, realpath.
  destruct (follow MAXSYMLINKS fs p) as [q|] eqn:F; [|discriminate].
  destruct (parent_error fs q); [discriminate|].
  intros H.
  assert (fs' = store q (File c) fs) as ->.
  { destruct (lstat fs q) as [[]|]; congruence. }
  rewrite (follow_store _ _ _ _ c F).
  rewrite lstat_store. rewrite decide_True by reflexivity. reflexivity.
Qed.

(** *** What the calls raise *)

Ltac raises_os :=
  repeat (match goal with
          | |- context [match ?x with _ => _ end] => destruct x
          end; try discriminate);
  intros [= <-]; eauto.

Lemma readlink_raises fs p e :
  readlink fs p = Raise e -> exists k q, e = OSError k q.
Proof. unfold readlink. raises_os. Qed.

Lemma rename_raises fs a b e :
  rename fs a b = Raise e -> exists k p, e = OSError k p.
Proof. unfold rename. raises_os. Qed.

Lemma symlink_raises fs a b e :
  symlink fs a b = Raise e -> exists k p, e = OSError k p.
Proof. unfold symlink. raises_os. Qed.

Lemma mkdir_raises fs a e :
  mkdir fs a = Raise e -> exists k p, e = OSError k p.
Proof. unfold mkdir. raises_os. Qed.

Lemma write_text_raises fs a c e :
  write_text fs a c = Raise e -> exists k p, e = OSError k p.
Proof. unfold write_text. raises_os. Qed.

End FSFacts.

Import FSFacts.

(** *** The links to a script in a directory *)

Lemma links_to_lstat fs src q :
  links_to fs src q = true <-> FS.lstat fs q = Some (Symlink src).
Proof.
  unfold links_to. destruct (FS.lstat fs q) as [[| |t]|]; split; try discriminate.
  - intros H. apply bool_decide_eq_true in H. congruence.
  - intros [= ->]. apply bool_decide_eq_true_2. reflexivity.
Qed.

Lemma links_to_is_symlink fs src q :
  links_to fs src q = true -> FS.is_symlink fs q = true.
Proof.
  unfold links_to, FS.is_symlink. destruct (FS.lstat fs q) as [[]|]; congruence.
Qed.

Lemma links_in_move fs dir src a b :
  dir <> [] ->
  FS.lstat fs (dir ++ [b]) = None -> a <> b ->
  links_in (FS.move (dir ++ [a]) (dir ++ [b]) fs) dir src
  = map (FS.rebase (dir ++ [a]) (dir ++ [b])) (links_in fs dir src).
Proof.
  intros Hd Hfree Hab. unfold links_in. rewrite glob_move by assumption.
  apply filter_map_commute. intros q Hq.
  pose proof (glob_inv _ _ _ Hd Hq) as [x ->].
  assert (L : forall y, length (dir ++ [y]) = length (dir ++ [a]))
    by (intros y; rewrite !length_app; reflexivity).
  assert (Hne : dir ++ [a] <> dir ++ [b]) by (apply snoc_neq; assumption).
  assert (Hx : dir ++ [x] <> dir ++ [b]).
  { intros E. apply In_glob_keys in Hq. rewrite E in Hq.
    apply lstat_None_In in Hfree. contradiction. }
  rewrite rebase_same_length by apply L.
  unfold links_to. case_decide as E.
  - rewrite lstat_move; auto. rewrite decide_True by reflexivity. rewrite E. reflexivity.
  - rewrite lstat_move; auto.
    rewrite decide_False by assumption. rewrite decide_False by assumption. reflexivity.
Qed.

Lemma links_in_app fs dir src x :
  dir <> [] -> FS.lstat fs (dir ++ [x]) = None ->
  links_in (fs ++ [(dir ++ [x], Symlink src)]) dir src
  = links_in fs dir src ++ [dir ++ [x]].
Proof.
  intros Hd Hfree. unfold links_in. rewrite glob_app.
  rewrite child_of_snoc by assumption. rewrite List.filter_app. f_equal.
  - apply filter_agree. intros q Hq. unfold links_to. rewrite lstat_app.
    apply In_glob_keys, In_lstat_Some in Hq as [n Hn]. rewrite Hn. reflexivity.
  - simpl. unfold links_to. rewrite lstat_app, Hfree.
    rewrite decide_True by reflexivity.
    rewrite bool_decide_eq_true_2 by reflexivity. reflexivity.
Qed.

(** ** The methods, step by step *)

Lemma check_installation_eq (self : file_manager) (w : world) :
  check_installation self w =
  let w' := World (files w) (processes w)
              (events w ++ [FileSystem (SIsDir (config_path self))]) in
  if FS.is_dir (files w) (config_path self)
  then (Ok tt, w') else (Raise (not_installed self), w').
Proof.
  unfold check_installation, path_is_dir, observe, bind, emit. simpl.
  destruct (FS.is_dir _ _); reflexivity.
Qed.

Lemma is_installed_eq (self : file_manager) (w : world) :
  is_installed self w =
  let argv := [executable self; "--version"] in
  let w' := World (files w) (processes w) (events w ++ [Subprocess argv]) in
  match processes w argv with
  | Exited returncode => (Ok (returncode =? 0)%Z, w')
  | LaunchFailed e => (Raise (OSError e (Path.parse (executable self))), w')
  end.
Proof.
  unfold is_installed, subprocess_run, bind, emit. simpl.
  destruct (processes w _) as [[| |]|]; reflexivity.
Qed.

(** The loop of [install_script]: it stops at the first link to the
    source script when it is to rename, and goes through all entries
    otherwise; it never changes the file system except by that renaming. *)
Lemma scan_entries_eq src tgt options entries fs pr ev :
  scan_entries src tgt options entries (World fs pr ev) =
  let force := get_flag options "force_rename_existing" in
  let ev' := ev ++ scan_events fs src tgt force entries in
  match (if force then List.find (links_to fs src) entries else None) with
  | Some q =>
      match FS.rename fs q tgt with
      | Ok fs' => (Ok true, World fs' pr ev')
      | Raise e => (Raise e, World fs pr ev')
      end
  | None => (Ok false, World fs pr ev')
  end.
Proof.
  revert ev. induction entries as [|q entries IH]; intros ev; simpl.
  { rewrite app_nil_r. destruct (get_flag _ _); reflexivity. }
  unfold bind at 1, path_is_symlink at 1, observe, bind, emit. simpl.
  assert (L : links_to fs src q =
              match FS.lstat fs q with
              | Some (Symlink t) => bool_decide (t = src)
              | _ => false
              end) by reflexivity.
  rewrite L. clear L. unfold FS.is_symlink.
  destruct (FS.lstat fs q) as [[c| |t]|] eqn:E; simpl.
  1,2,4: rewrite IH; simpl; rewrite <- !app_assoc; simpl;
         destruct (get_flag _ _); reflexivity.
  unfold path_readlink, attempt, bind, emit, FS.readlink. simpl. rewrite E.
  destruct (bool_decide (t = src)); simpl.
  - destruct (get_flag options "force_rename_existing") eqn:F; simpl.
    + unfold os_rename, perform, bind, emit, ret. simpl.
      rewrite <- !app_assoc. simpl.
      destruct (FS.rename fs q tgt); reflexivity.
    + unfold logging_warning, emit. simpl. rewrite IH. simpl.
      rewrite <- !app_assoc. reflexivity.
  - rewrite IH. simpl. rewrite <- !app_assoc. simpl.
    destruct (get_flag _ _); reflexivity.
Qed.

(** The record of the loop holds no creation of a link, the renaming
    if one took place, and a warning for every link to the source
    script that was tolerated. *)
Lemma scan_events_no_symlink fs src tgt force entries :
  forallb (fun e => negb (is_symlink_call e)) (scan_events fs src tgt force entries)
  = true.
Proof.
  induction entries as [|q entries IH]; simpl; [reflexivity|].
  destruct (FS.is_symlink fs q); simpl; [|exact IH].
  destruct (links_to fs src q); simpl; [|exact IH].
  destruct force; simpl; [reflexivity|exact IH].
Qed.

Lemma scan_events_rename fs src tgt entries q :
  List.find (links_to fs src) entries = Some q ->
  In (FileSystem (SRename q tgt)) (scan_events fs src tgt true entries).
Proof.
  induction entries as [|a entries IH]; simpl; [discriminate|].
  destruct (links_to fs src a) eqn:L.
  - intros [= ->]. right. rewrite (links_to_is_symlink _ _ _ L). simpl. auto.
  - intros H. right. destruct (FS.is_symlink fs a); simpl; auto.
Qed.

Lemma scan_events_warning fs src tgt entries q :
  In q entries -> links_to fs src q = true ->
  In (Logging WARNING (already_linked q)) (scan_events fs src tgt false entries).
Proof.
  induction entries as [|a entries IH]; simpl; [tauto|].
  intros [->|Hin] L.
  - right. rewrite (links_to_is_symlink _ _ _ L), L. simpl. auto.
  - right. specialize (IH Hin L).
    destruct (FS.is_symlink fs a); simpl; [|assumption].
    right. destruct (links_to fs src a); simpl; auto.
Qed.

Lemma joinpath_name (dir : path) (name : string) :
  Path.is_name name = true -> Path.joinpath dir name = dir ++ [name].
Proof.
  unfold Path.is_name. intros H.
  apply andb_prop in H as [H _]. apply andb_prop in H as [H R].
  apply bool_decide_eq_true in H. unfold Path.joinpath. rewrite H. simpl.
  apply negb_true_iff in R. rewrite R. reflexivity.
Qed.

(** The classes with a scripts directory are those of the Nautilus
    family, the ones with [install_script]. *)
Lemma scripts_path_family self dir :
  scripts_path self = Some dir ->
  (self = Nautilus \/ self = Caja \/ self = Nemo) /\
  dir = config_path self ++ ["scripts"].
Proof.
  destruct self; try discriminate; intros [= <-]; split; auto.
Qed.

Lemma scripts_dir_nonempty self dir : scripts_path self = Some dir -> dir <> [].
Proof.
  intros H. apply scripts_path_family in H as [_ ->].
  intros E. apply (f_equal length) in E. rewrite length_app in E. simpl in E. lia.
Qed.

Lemma Nemo_install_action_eq (src : path) (options : kwargs) (w : world) :
  install_action Nemo src options w =
  let ev1 := events w ++ [FileSystem (SIsDir (config_path Nemo))] in
  if FS.is_dir (files w) (config_path Nemo) then
    match options !! "name" with
    | None => (Raise (KeyError "name"), World (files w) (processes w) ev1)
    | Some v =>
        let ev2 := ev1 ++ [FileSystem (SWrite (nemo_action_file v) (nemo_action options))] in
        match FS.write_text (files w) (nemo_action_file v) (nemo_action options) with
        | Ok fs' => (Ok tt, World fs' (processes w) ev2)
        | Raise e => (Raise e, World (files w) (processes w) ev2)
        end
    end
  else (Raise (not_installed Nemo), World (files w) (processes w) ev1).
Proof.
  unfold install_action, Nemo_install_action, check_actions_support.
  change (contains (capabilities Nemo) ACTIONS) with true. simpl negb. cbv iota.
  unfold bind at 1. rewrite check_installation_eq. simpl.
  destruct (FS.is_dir (files w) _); [|reflexivity].
  unfold bind, getitem. destruct (options !! "name") as [v|]; [|reflexivity].
  simpl. rewrite safe_substitute_nemo, nemo_action_exec.
  unfold write_file, perform, bind, emit. simpl.
  fold (nemo_action_file v).
  destruct (FS.write_text (files w) _ _); reflexivity.
Qed.

(** ** Which exceptions the installers raise

    [raises_only P m] is preserved by the monad; the exceptions of the
    file system calls are all [OSError]s. *)

Section RaisesOnly.

Context (P : exn -> bool).

Lemma raises_only_ret {A} (a : A) : raises_only P (ret a).
Proof. intros w e w'. discriminate. Qed.

Lemma raises_only_raise {A} (e : exn) : P e = true -> raises_only P (@raise A e).
Proof. intros H w e' w' [= <- _]. exact H. Qed.

Lemma raises_only_bind {A B} (m : M A) (k : A -> M B) :
  raises_only P m -> (forall a, raises_only P (k a)) -> raises_only P (bind m k).
Proof.
  intros Hm Hk w e w'. unfold bind.
  destruct (m w) as [[a|e1] w1] eqn:E.
  - apply Hk.
  - intros [= <- _]. eapply Hm. eassumption.
Qed.

Lemma raises_only_emit (ev : event) : raises_only P (emit ev).
Proof. intros w e w'. discriminate. Qed.

Lemma raises_only_observe {A} c (f : filesystem -> A) : raises_only P (observe c f).
Proof.
  apply raises_only_bind; [apply raises_only_emit|].
  intros _ w e w'. discriminate.
Qed.

Lemma raises_only_perform c (f : filesystem -> result filesystem) :
  (forall fs e, f fs = Raise e -> P e = true) -> raises_only P (perform c f).
Proof.
  intros Hf. apply raises_only_bind; [apply raises_only_emit|].
  intros _ w e w'. destruct (f (files w)) eqn:E; [discriminate|].
  intros [= <- _]. eapply Hf. eassumption.
Qed.

Lemma raises_only_attempt {A} c (f : filesystem -> result A) :
  (forall fs e, f fs = Raise e -> P e = true) -> raises_only P (attempt c f).
Proof.
  intros Hf. apply raises_only_bind; [apply raises_only_emit|].
  intros _ w e w'. intros [= E _]. eapply Hf. eassumption.
Qed.

End RaisesOnly.

Lemma oserror_expected (e : exn) :
  (exists k p, e = OSError k p) -> expected_error e = true.
Proof. intros (k & p & ->). reflexivity. Qed.

Lemma scan_entries_raises src tgt options entries :
  raises_only expected_error (scan_entries src tgt options entries).
Proof.
  induction entries as [|q entries IH]; simpl.
  { apply raises_only_ret. }
  apply raises_only_bind; [apply raises_only_observe|]. intros [|]; [|exact IH].
  apply raises_only_bind.
  { apply raises_only_attempt. intros fs e H. eapply oserror_expected, readlink_raises, H. }
  intros link. destruct (bool_decide (link = src)); [|exact IH].
  destruct (get_flag options "force_rename_existing").
  - apply raises_only_bind; [|intros; apply raises_only_ret].
    apply raises_only_perform. intros fs e H. eapply oserror_expected, rename_raises, H.
  - apply raises_only_bind; [apply raises_only_emit|]. intros _. exact IH.
Qed.

Lemma check_installation_raises self :
  raises_only expected_error (check_installation self).
Proof.
  apply raises_only_bind; [apply raises_only_observe|]. intros [|]; simpl.
  - apply raises_only_ret.
  - apply raises_only_raise. unfold not_installed, expected_error, install_script_message.
    rewrite ends_with_app. reflexivity.
Qed.

(** Past its capability check, [install_script] raises nothing but its
    three errors and what the file system raises. *)
Lemma Nautilus_install_script_raises self src options :
  contains (capabilities self) SCRIPTS = true ->
  raises_only expected_error (Nautilus_install_script self src options).
Proof.
  intros Hcap. unfold Nautilus_install_script, check_scripts_support. rewrite Hcap. simpl.
  apply raises_only_bind; [apply check_installation_raises|]. intros _.
  apply raises_only_bind.
  { unfold get_scripts_path. destruct (scripts_path self).
    - apply raises_only_ret.
    - apply raises_only_raise. reflexivity. }
  intros dir.
  apply raises_only_bind; [apply raises_only_observe|]. intros present.
  apply raises_only_bind.
  { destruct present; simpl; [apply raises_only_ret|].
    destruct (get_flag options "force_create_directories").
    - apply raises_only_perform. intros fs e H. eapply oserror_expected, mkdir_raises, H.
    - apply raises_only_raise. unfold not_available, expected_error, install_script_message.
      rewrite ends_with_app. rewrite orb_true_r. reflexivity. }
  intros _.
  apply raises_only_bind.
  { unfold getitem. destruct (options !! "display_name").
    - apply raises_only_ret.
    - apply raises_only_raise. reflexivity. }
  intros display_name.
  apply raises_only_bind.
  { destruct display_name; simpl; [apply raises_only_ret|].
    apply raises_only_raise. reflexivity. }
  intros tgt.
  apply raises_only_bind; [apply raises_only_emit|]. intros _.
  apply raises_only_bind; [apply raises_only_observe|]. intros [|].
  { apply raises_only_raise. unfold already_exists, expected_error, install_script_message.
    rewrite ends_with_app. rewrite orb_true_r. reflexivity. }
  apply raises_only_bind; [apply raises_only_observe|]. intros entries.
  apply raises_only_bind; [apply scan_entries_raises|]. intros [|].
  - apply raises_only_ret.
  - apply raises_only_perform. intros fs e H. eapply oserror_expected, symlink_raises, H.
Qed.

Lemma Nemo_install_action_raises self src options :
  contains (capabilities self) ACTIONS = true ->
  raises_only expected_error (Nemo_install_action self src options).
Proof.
  intros Hcap. unfold Nemo_install_action, check_actions_support. rewrite Hcap. simpl.
  apply raises_only_bind; [apply check_installation_raises|]. intros _.
  apply raises_only_bind.
  { unfold getitem. destruct (options !! "name").
    - apply raises_only_ret.
    - apply raises_only_raise. reflexivity. }
  intros action_name.
  apply raises_only_bind.
  { unfold get_actions_path. destruct (actions_path self).
    - apply raises_only_ret.
    - apply raises_only_raise. reflexivity. }
  intros dir.
  apply raises_only_perform. intros fs e H. eapply oserror_expected, write_text_raises, H.
Qed.

(** ** The profiles *)

(** C9: for every class, [actions_path] is set exactly when "actions" is
    among the capabilities, and [scripts_path] exactly when "scripts"
    is; a path that is set is the configuration path joined with the
    name of the subdirectory. *)
Theorem paths_defined_iff_capable (self : file_manager) :
  (is_Some (actions_path self) <-> ACTIONS ∈ capabilities self) /\
  (is_Some (scripts_path self) <-> SCRIPTS ∈ capabilities self) /\
  (forall p, actions_path self = Some p ->
     p = Path.joinpath (config_path self) (actions_subdir self) /\
     p = config_path self ++ ["actions"]) /\
  (forall p, scripts_path self = Some p ->
     p = Path.joinpath (config_path self) (scripts_subdir self) /\
     p = config_path self ++ ["scripts"]).
Proof.
  unfold actions_path, scripts_path.
  rewrite <- !contains_elem_of.
  split; [|split; [|split]].
  - destruct (contains _ ACTIONS); split; eauto; try discriminate.
    intros [? ?]; discriminate.
  - destruct (contains _ SCRIPTS); split; eauto; try discriminate.
    intros [? ?]; discriminate.
  - intros p. destruct (contains _ ACTIONS); [|discriminate].
    intros [= <-]. split; reflexivity.
  - intros p. destruct (contains _ SCRIPTS); [|discriminate].
    intros [= <-]. split; reflexivity.
Qed.

(** The table of the classes, for the record. *)
Example paths_of_the_classes :
  map (fun self => (actions_path self, scripts_path self))
    [BaseFileManager; Nautilus; Caja; Nemo; KdefileManager; PcManFm; Thunar]
  = [ (None, None);
      (None, Some [".local"; "share"; "nautilus"; "scripts"]);
      (Some [".local"; "share"; "caja"; "actions"],
       Some [".local"; "share"; "caja"; "scripts"]);
      (Some [".local"; "share"; "nemo"; "actions"],
       Some [".local"; "share"; "nemo"; "scripts"]);
      (Some [".local"; "share"; "unknown"; "actions"], None);
      (Some [".local"; "share"; "unknown"; "actions"], None);
      (Some [".local"; "share"; "unknown"; "actions"], None) ].
Proof. reflexivity. Qed.

(** C8: for every class, [check_installation] fails, with the "probably
    not installed" error, exactly when there is no directory at the
    configuration path, and returns otherwise; the capabilities play no
    part, and the file system is left as it is. *)
Theorem check_installation_fails_iff_no_directory (self : file_manager) (w : world) :
  (fst (check_installation self w) = Raise (not_installed self)
     <-> FS.is_dir (files w) (config_path self) = false) /\
  (fst (check_installation self w) = Ok tt
     <-> FS.is_dir (files w) (config_path self) = true) /\
  files (snd (check_installation self w)) = files w.
Proof.
  rewrite check_installation_eq. simpl.
  destruct (FS.is_dir _ _); simpl; repeat split; congruence.
Qed.

(** What [is_installed] does with the outcome of the probe: an exit
    status gives a boolean, true for zero. *)
Lemma is_installed_exit (self : file_manager) (w : world) (returncode : Z) :
  processes w [executable self; "--version"] = Exited returncode ->
  fst (is_installed self w) = Ok (returncode =? 0)%Z.
Proof. intros H. rewrite is_installed_eq. simpl. rewrite H. reflexivity. Qed.

(** A program that cannot be launched gives an exception. *)
Lemma is_installed_launch_failed (self : file_manager) (w : world) (e : oserror) :
  processes w [executable self; "--version"] = LaunchFailed e ->
  fst (is_installed self w) = Raise (OSError e (Path.parse (executable self))).
Proof. intros H. rewrite is_installed_eq. simpl. rewrite H. reflexivity. Qed.

(** C7 fails on this input: Nautilus is not there, the program cannot be
    launched, [subprocess.run] raises [FileNotFoundError], and
    [is_installed], which catches [CalledProcessError] only, lets it
    out instead of returning [False]. *)
Theorem is_installed_raises_when_not_launched :
  let w := Sample.world_of Sample.home in
  processes w [executable Nautilus; "--version"] = LaunchFailed FileNotFoundError /\
  fst (is_installed Nautilus w)
  = Raise (OSError FileNotFoundError (Path.parse "/usr/bin/nautilus")) /\
  fst (is_installed Nautilus w) <> Ok false.
Proof. vm_compute. repeat split. discriminate. Qed.

(** C2, amended: [check_actions_support] and [check_scripts_support]
    raise the "not supported" error exactly when the kind is missing
    from the capabilities, and then without any effect; so do the
    bodies of [Nautilus.install_script] and [Nemo.install_action].
    Every class that has an installer for a kind has the kind among its
    capabilities, so a call of an installer never ends in that error.
    Calling the installer of a kind that is not among the capabilities
    fails without any effect too, but at the attribute lookup: the
    class has no such method. *)
Theorem capability_check
    (self : file_manager) (src : path) (options : kwargs) (w : world) :
  check_actions_support self w =
    (if contains (capabilities self) ACTIONS then check_installation self w
     else (Raise (not_supported "Actions" self), w)) /\
  check_scripts_support self w =
    (if contains (capabilities self) SCRIPTS then check_installation self w
     else (Raise (not_supported "Scripts" self), w)) /\
  (if contains (capabilities self) ACTIONS
   then fst (Nemo_install_action self src options w)
        <> Raise (not_supported "Actions" self)
   else Nemo_install_action self src options w
        = (Raise (not_supported "Actions" self), w)) /\
  (if contains (capabilities self) SCRIPTS
   then fst (Nautilus_install_script self src options w)
        <> Raise (not_supported "Scripts" self)
   else Nautilus_install_script self src options w
        = (Raise (not_supported "Scripts" self), w)) /\
  (if contains (capabilities self) ACTIONS
   then fst (install_action self src options w) <> Raise (not_supported "Actions" self)
   else install_action self src options w
        = (Raise (no_attribute self "install_action"), w)) /\
  (if contains (capabilities self) SCRIPTS
   then fst (install_script self src options w) <> Raise (not_supported "Scripts" self)
   else install_script self src options w
        = (Raise (no_attribute self "install_script"), w)).
Proof.
  assert (A : forall s, contains (capabilities s) ACTIONS = true ->
                fst (Nemo_install_action s src options w)
                <> Raise (not_supported "Actions" s)).
  { intros s Hcap H.
    destruct (Nemo_install_action s src options w) as [r w'] eqn:E.
    simpl in H. subst r.
    apply (Nemo_install_action_raises s src options Hcap) in E.
    destruct s; discriminate. }
  assert (G : forall s, contains (capabilities s) SCRIPTS = true ->
                fst (Nautilus_install_script s src options w)
                <> Raise (not_supported "Scripts" s)).
  { intros s Hcap H.
    destruct (Nautilus_install_script s src options w) as [r w'] eqn:E.
    simpl in H. subst r.
    apply (Nautilus_install_script_raises s src options Hcap) in E.
    destruct s; discriminate. }
  split; [|split; [|split; [|split; [|split]]]].
  - unfold check_actions_support. destruct (contains _ _); reflexivity.
  - unfold check_scripts_support. destruct (contains _ _); reflexivity.
  - destruct (contains (capabilities self) ACTIONS) eqn:Hcap; [auto|].
    unfold Nemo_install_action, check_actions_support. rewrite Hcap. reflexivity.
  - destruct (contains (capabilities self) SCRIPTS) eqn:Hcap; [auto|].
    unfold Nautilus_install_script, check_scripts_support. rewrite Hcap. reflexivity.
  - destruct self; try reflexivity; try discriminate. apply (A Nemo). reflexivity.
  - destruct self; try reflexivity; apply G; reflexivity.
Qed.

(** C2 as stated does not hold: Nautilus has no action support, and a
    call of [install_action] on it ends in [AttributeError], not in the
    "not supported" error. *)
Lemma install_action_without_capability :
  let w := Sample.world_of Sample.home in
  contains (capabilities Nautilus) ACTIONS = false /\
  install_action Nautilus Sample.script Sample.action w
  = (Raise (AttributeError "'Nautilus' object has no attribute 'install_action'"), w) /\
  fst (install_action Nautilus Sample.script Sample.action w)
  <> Raise (not_supported "Actions" Nautilus).
Proof. vm_compute. repeat split. discriminate. Qed.

(** ** Installing an action *)

(** The one [KeyError] of [install_action] is for a missing [name], of
    which the file name is made; it is raised after the installation
    test and before anything is written. *)
Lemma install_action_key_error
    (source_path : path) (options : kwargs) (w : world) (key : string) :
  fst (install_action Nemo source_path options w) = Raise (KeyError key)
  <-> key = "name" /\ options !! "name" = None /\
      FS.is_dir (files w) (config_path Nemo) = true.
Proof.
  rewrite Nemo_install_action_eq. simpl.
  destruct (FS.is_dir (files w) _).
  - destruct (options !! "name") as [v|]; simpl.
    + destruct (FS.write_text (files w) _ _) as [fs'|e] eqn:W; simpl.
      * split; [discriminate|]. intros (_ & H & _). discriminate.
      * split; [|intros (_ & H & _); discriminate].
        intros [= ->]. apply write_text_raises in W as (k & p & W). discriminate.
    + split; [intros [= <-]; auto|]. intros (-> & _ & _). reflexivity.
  - split; [discriminate|]. intros (_ & _ & H). discriminate.
Qed.

(** An action without comment: the call returns, and the placeholder
    of the comment is in the file. *)
Example nemo_action_without_comment :
  let r := install_action Nemo Sample.script Sample.action_without_comment
             (Sample.world_of Sample.home) in
  fst r = Ok tt /\
  FS.lstat (files (snd r)) (Path.parse ".local/share/nemo/actions/Batch Rename.nemo_action")
  = Some (File ("[Nemo Action]" +:+ nl +:+
                "Name=Batch Rename" +:+ nl +:+
                "Comment=${comment}" +:+ nl +:+
                "Exec=${executable} %F" +:+ nl +:+
                "Selection=S" +:+ nl +:+
                "Extensions=jpg;png;" +:+ nl +:+
                "Quote=double" +:+ nl)).
Proof. vm_compute. split; reflexivity. Qed.

(** The source path is stored under [exec], a key the template does not
    have: unless the caller supplies [executable], the entry keeps its
    placeholder. *)
Lemma nemo_exec_entry (source_path : path) (options : kwargs) :
  field (<["exec" := VStr (Path.str source_path)]> options) "executable"
  = field options "executable" /\
  (options !! "executable" = None -> field options "executable" = "${executable}").
Proof.
  split; [apply field_insert_ne; discriminate|].
  intros H. unfold field. rewrite H. reflexivity.
Qed.

(** C1 fails on this input: name, comment and extensions are supplied
    and [executable] is not; the call returns, and the Exec line of the
    file reads [${executable} %F], not [/home/u/tools/rename.sh %F]. *)
Theorem nemo_exec_placeholder_not_bound :
  let r := install_action Nemo Sample.script Sample.action
             (Sample.world_of Sample.home) in
  Sample.action !! "executable" = None /\
  Path.str Sample.script = "/home/u/tools/rename.sh" /\
  fst r = Ok tt /\
  FS.lstat (files (snd r)) (Path.parse ".local/share/nemo/actions/Batch Rename.nemo_action")
  = Some (File ("[Nemo Action]" +:+ nl +:+
                "Name=Batch Rename" +:+ nl +:+
                "Comment=Rename many files" +:+ nl +:+
                "Exec=${executable} %F" +:+ nl +:+
                "Selection=S" +:+ nl +:+
                "Extensions=jpg;png;" +:+ nl +:+
                "Quote=double" +:+ nl)).
Proof. vm_compute. repeat split. Qed.

(** ** Installing a script

    The setting of the statements below: a class of the Nautilus
    family, whose scripts directory [dir] exists, inside the
    configuration directory, and a display name that names an entry of
    that directory. *)

Section InstallScript.

Variables (self : file_manager) (src : path) (options : kwargs) (w : world).
Variables (dir : path) (display_name : string).

Hypothesis scripts_dir : scripts_path self = Some dir.
Hypothesis config_present : FS.is_dir (files w) (config_path self) = true.
Hypothesis scripts_present : FS.is_dir (files w) dir = true.
Hypothesis named : options !! "display_name" = Some (VStr display_name).
Hypothesis plain_name : Path.is_name display_name = true.

Local Abbreviation target := (dir ++ [display_name]).

(** The method up to its loop. *)
Lemma install_script_start :
  install_script self src options w =
  let before := [FileSystem (SIsDir (config_path self));
                 FileSystem (SIsDir dir);
                 Logging DEBUG ("Target path: " +:+ Path.str target);
                 FileSystem (SExists target)] in
  if FS.exists_ (files w) target
  then (Raise (already_exists target),
        World (files w) (processes w) (events w ++ before))
  else finish src target
         (scan_entries src target options (FS.glob (files w) dir)
            (World (files w) (processes w)
               (events w ++ before ++ [FileSystem (SGlob dir)]))).
Proof.
  assert (Hself : install_script self src options
                  = Nautilus_install_script self src options).
  { apply scripts_path_family in scripts_dir as [[->|[->| ->]] _]; reflexivity. }
  assert (Hcap : contains (capabilities self) SCRIPTS = true).
  { apply scripts_path_family in scripts_dir as [[->|[->| ->]] _]; reflexivity. }
  rewrite Hself. unfold Nautilus_install_script, check_scripts_support.
  rewrite Hcap. simpl.
  unfold check_installation, get_scripts_path. rewrite scripts_dir.
  unfold bind, path_is_dir, observe, bind, emit, ret. simpl.
  rewrite config_present. simpl. rewrite scripts_present. simpl.
  unfold getitem. rewrite named. simpl.
  rewrite (joinpath_name _ _ plain_name).
  unfold logging_debug, path_exists, path_glob, observe, bind, emit. simpl.
  destruct (FS.exists_ (files w) target); simpl; rewrite <- !app_assoc; simpl;
    [reflexivity|].
  unfold finish.
  destruct (scan_entries _ _ _ _ _) as [[[]|e] w']; reflexivity.
Qed.

(** The error of an occupied target path: whenever the existence test
    is positive, and without any change. *)
Lemma install_script_target_exists :
  FS.exists_ (files w) target = true ->
  fst (install_script self src options w) = Raise (already_exists target) /\
  files (snd (install_script self src options w)) = files w.
Proof. intros H. rewrite install_script_start. simpl. rewrite H. split; reflexivity. Qed.

(** C3, amended: for a display name that is a plain name (a single
    path component), with [force_rename_existing] set, the
    configuration directory and the scripts directory present, exactly
    one link to the source script among the entries of the scripts
    directory, under another name, and nothing at the new target path,
    [install_script] renames that link to the target path and returns:
    no link is created, and afterwards the directory again holds
    exactly one link to the source script, under the new name. *)
Theorem install_script_force_rename (old_name : string) :
  get_flag options "force_rename_existing" = true ->
  links_in (files w) dir src = [dir ++ [old_name]] ->
  FS.lstat (files w) target = None ->
  exists w' evs,
    install_script self src options w = (Ok tt, w') /\
    old_name <> display_name /\
    files w' = FS.move (dir ++ [old_name]) target (files w) /\
    links_in (files w') dir src = [target] /\
    FS.lstat (files w') target = Some (Symlink src) /\
    FS.lstat (files w') (dir ++ [old_name]) = None /\
    events w' = events w ++ evs /\
    In (FileSystem (SRename (dir ++ [old_name]) target)) evs /\
    forallb (fun e => negb (is_symlink_call e)) evs = true.
Proof.
  intros Hf Hu Hfree.
  pose proof (scripts_dir_nonempty _ _ scripts_dir) as Hne.
  assert (Hin : In (dir ++ [old_name]) (links_in (files w) dir src))
    by (rewrite Hu; left; reflexivity).
  apply filter_In in Hin as [Hglob Hold].
  assert (Hlink : FS.lstat (files w) (dir ++ [old_name]) = Some (Symlink src))
    by (apply links_to_lstat; assumption).
  assert (Hnames : old_name <> display_name) by congruence.
  assert (Hdiff : dir ++ [old_name] <> target) by (apply snoc_neq; assumption).
  rewrite install_script_start. simpl.
  rewrite (exists_absent _ _ Hfree).
  rewrite scan_entries_eq. rewrite Hf. simpl.
  assert (Hfind : List.find (links_to (files w) src) (FS.glob (files w) dir)
                  = Some (dir ++ [old_name])).
  { apply find_unique; auto.
    intros y Hy Ly.
    assert (I : In y (links_in (files w) dir src)) by (apply filter_In; auto).
    rewrite Hu in I. destruct I as [<-|[]]. reflexivity. }
  rewrite Hfind.
  rewrite (rename_to_free _ _ _ _ _ Hne scripts_present Hlink Hfree). simpl.
  assert (Hl : forall x, length (dir ++ [x]) = length (dir ++ [old_name])).
  { intros x. rewrite !length_app. reflexivity. }
  eexists _, _. split; [reflexivity|]. simpl.
  split; [assumption|].
  split; [reflexivity|].
  split.
  { rewrite links_in_move by assumption. rewrite Hu. simpl.
    rewrite rebase_same_length by reflexivity.
    rewrite decide_True by reflexivity. reflexivity. }
  split.
  { rewrite lstat_move; auto. rewrite decide_True by reflexivity. assumption. }
  split.
  { rewrite lstat_move; auto. rewrite decide_False by assumption.
    rewrite decide_True by reflexivity. reflexivity. }
  split; [rewrite <- !app_assoc; reflexivity|].
  split.
  { simpl. do 5 right. apply scan_events_rename. assumption. }
  simpl. apply scan_events_no_symlink.
Qed.

(** C5, amended: for a display name that is a plain name (a single
    path component), without [force_rename_existing], with the
    configuration directory and the scripts directory present, a link
    to the source script among the entries of the scripts directory,
    under another name, and nothing at the new target path,
    [install_script] logs a warning, goes on, and creates one more link
    at the target path; afterwards both entries are links to the source
    script. *)
Theorem install_script_duplicate_link (old_name : string) :
  get_flag options "force_rename_existing" = false ->
  FS.lstat (files w) (dir ++ [old_name]) = Some (Symlink src) ->
  FS.lstat (files w) target = None ->
  exists w' evs,
    install_script self src options w = (Ok tt, w') /\
    old_name <> display_name /\
    files w' = files w ++ [(target, Symlink src)] /\
    FS.readlink (files w') (dir ++ [old_name]) = Ok src /\
    FS.readlink (files w') target = Ok src /\
    links_in (files w') dir src = links_in (files w) dir src ++ [target] /\
    events w' = events w ++ evs /\
    In (Logging WARNING (already_linked (dir ++ [old_name]))) evs /\
    last evs = Some (FileSystem (SSymlink src target)).
Proof.
  intros Hf Hold Hfree.
  pose proof (scripts_dir_nonempty _ _ scripts_dir) as Hne.
  rewrite install_script_start. simpl.
  rewrite (exists_absent _ _ Hfree).
  rewrite scan_entries_eq. rewrite Hf. simpl.
  unfold os_symlink, perform, bind, emit, FS.symlink. simpl.
  rewrite is_dir_parent_error by assumption. rewrite Hfree.
  eexists _, _. split; [reflexivity|]. simpl.
  split; [congruence|].
  split; [reflexivity|].
  split; [unfold FS.readlink; rewrite lstat_app, Hold; reflexivity|].
  split.
  { unfold FS.readlink. rewrite lstat_app, Hfree.
    rewrite decide_True by reflexivity. reflexivity. }
  split; [apply links_in_app; assumption|].
  split; [rewrite <- !app_assoc; reflexivity|].
  split.
  { simpl. do 5 right. apply in_or_app. left.
    apply scan_events_warning.
    - eapply In_glob; eassumption.
    - apply links_to_lstat. assumption. }
  change (?a :: ?b :: ?c :: ?d :: ?e :: ?l) with ([a; b; c; d; e] ++ l).
  rewrite !last_app. reflexivity.
Qed.


End InstallScript.

(** Nemo has the script linked as [Rename]; it is installed again as
    [Batch Rename], with [force_rename_existing]. *)
Lemma install_script_force_rename_witness :
  exists w' evs,
    install_script Nemo Sample.script Sample.batch_rename_forced
      (Sample.world_of Sample.home_linked) = (Ok tt, w') /\
    "Rename" <> "Batch Rename" /\
    files w' = FS.move (Sample.nemo_scripts ++ ["Rename"])
                 (Sample.nemo_scripts ++ ["Batch Rename"]) Sample.home_linked /\
    links_in (files w') Sample.nemo_scripts Sample.script
    = [Sample.nemo_scripts ++ ["Batch Rename"]] /\
    FS.lstat (files w') (Sample.nemo_scripts ++ ["Batch Rename"])
    = Some (Symlink Sample.script) /\
    FS.lstat (files w') (Sample.nemo_scripts ++ ["Rename"]) = None /\
    events w' = [] ++ evs /\
    In (FileSystem (SRename (Sample.nemo_scripts ++ ["Rename"])
                      (Sample.nemo_scripts ++ ["Batch Rename"]))) evs /\
    forallb (fun e => negb (is_symlink_call e)) evs = true.
Proof.
  refine (install_script_force_rename Nemo Sample.script Sample.batch_rename_forced
            (Sample.world_of Sample.home_linked) Sample.nemo_scripts "Batch Rename"
            _ _ _ _ _ "Rename" _ _ _);
    vm_compute; reflexivity.
Defined.

(** The same, without [force_rename_existing]. *)
Lemma install_script_duplicate_link_witness :
  exists w' evs,
    install_script Nemo Sample.script Sample.batch_rename
      (Sample.world_of Sample.home_linked) = (Ok tt, w') /\
    "Rename" <> "Batch Rename" /\
    files w' = Sample.home_linked
               ++ [(Sample.nemo_scripts ++ ["Batch Rename"], Symlink Sample.script)] /\
    FS.readlink (files w') (Sample.nemo_scripts ++ ["Rename"]) = Ok Sample.script /\
    FS.readlink (files w') (Sample.nemo_scripts ++ ["Batch Rename"]) = Ok Sample.script /\
    links_in (files w') Sample.nemo_scripts Sample.script
    = links_in Sample.home_linked Sample.nemo_scripts Sample.script
      ++ [Sample.nemo_scripts ++ ["Batch Rename"]] /\
    events w' = [] ++ evs /\
    In (Logging WARNING (already_linked (Sample.nemo_scripts ++ ["Rename"]))) evs /\
    last evs = Some (FileSystem (SSymlink Sample.script
                                   (Sample.nemo_scripts ++ ["Batch Rename"]))).
Proof.
  refine (install_script_duplicate_link Nemo Sample.script Sample.batch_rename
            (Sample.world_of Sample.home_linked) Sample.nemo_scripts "Batch Rename"
            _ _ _ _ _ "Rename" _ _ _);
    vm_compute; reflexivity.
Defined.



(** C3 as stated does not hold: the display name [Convert jpg/png] is
    not the name of an entry of the scripts directory.  The link to
    the source script is there, under another name, nothing is at the
    target path and [force_rename_existing] is set; but [os.rename]
    finds no directory [Convert jpg] to put the link into, the call
    ends in [FileNotFoundError], and the link keeps its name. *)
Theorem install_script_force_rename_into_missing_directory :
  let target := Path.joinpath Sample.nemo_scripts "Convert jpg/png" in
  let w := Sample.world_of Sample.home_linked in
  let r := install_script Nemo Sample.script Cases.slashed_forced w in
  get_flag Cases.slashed_forced "force_rename_existing" = true /\
  FS.is_dir (files w) Sample.nemo_scripts = true /\
  links_in (files w) Sample.nemo_scripts Sample.script
  = [Sample.nemo_scripts ++ ["Rename"]] /\
  FS.lstat (files w) target = None /\
  fst r = Raise (OSError FileNotFoundError target) /\
  files (snd r) = files w /\
  In (FileSystem (SRename (Sample.nemo_scripts ++ ["Rename"]) target)) (events (snd r)).
Proof. vm_compute. repeat split. do 7 right. left. reflexivity. Qed.

(** C5 as stated does not hold, for the same display name: without
    [force_rename_existing] the warning is logged, but [os.symlink]
    finds no directory [Convert jpg] either; the call ends in
    [FileNotFoundError], and no second link is created. *)
Theorem install_script_duplicate_link_into_missing_directory :
  let target := Path.joinpath Sample.nemo_scripts "Convert jpg/png" in
  let w := Sample.world_of Sample.home_linked in
  let r := install_script Nemo Sample.script Cases.slashed w in
  get_flag Cases.slashed "force_rename_existing" = false /\
  FS.is_dir (files w) Sample.nemo_scripts = true /\
  links_in (files w) Sample.nemo_scripts Sample.script
  = [Sample.nemo_scripts ++ ["Rename"]] /\
  FS.lstat (files w) target = None /\
  fst r = Raise (OSError FileNotFoundError target) /\
  logged_warnings (events (snd r))
  = [already_linked (Sample.nemo_scripts ++ ["Rename"])] /\
  files (snd r) = files w /\
  links_in (files (snd r)) Sample.nemo_scripts Sample.script
  = [Sample.nemo_scripts ++ ["Rename"]].
Proof. vm_compute. repeat split. Qed.

(** C4 fails on this input: the script to link does not exist, so the
    link that the first call creates leads nowhere, the existence test
    of the second call is negative, and the second call ends in
    [FileExistsError] from [os.symlink], not in the "already exists"
    error. *)
Theorem install_script_twice_missing_source :
  let target := Sample.nemo_scripts ++ ["Batch Rename"] in
  let first := install_script Nemo Sample.missing_script Sample.batch_rename
                 (Sample.world_of Sample.home) in
  let second := install_script Nemo Sample.missing_script Sample.batch_rename
                  (snd first) in
  get_flag Sample.batch_rename "force_create_directories" = false /\
  get_flag Sample.batch_rename "force_rename_existing" = false /\
  fst first = Ok tt /\
  files (snd first) = Sample.home ++ [(target, Symlink Sample.missing_script)] /\
  fst second = Raise (OSError FileExistsError target) /\
  fst second <> Raise (already_exists target) /\
  files (snd second) = files (snd first).
Proof. vm_compute. repeat split; discriminate. Qed.

(** With a script that exists, the second call does end in the "already
    exists" error. *)
Example install_script_twice :
  let target := Sample.nemo_scripts ++ ["Batch Rename"] in
  let first := install_script Nemo Sample.script Sample.batch_rename
                 (Sample.world_of Sample.home) in
  let second := install_script Nemo Sample.script Sample.batch_rename (snd first) in
  fst first = Ok tt /\
  fst second = Raise (already_exists target) /\
  already_exists target <> not_available Sample.nemo_scripts /\
  files (snd second) = files (snd first).
Proof. vm_compute. repeat split; discriminate. Qed.
(** ** More about [install_script]

    The properties below follow the method through all of its branches. *)

(** The whole method, as a decision tree over the file system. *)
Lemma install_script_eq self src options w dir :
  scripts_path self = Some dir ->
  install_script self src options w =
  let fs := files w in
  let pr := processes w in
  let ev1 := events w ++ [FileSystem (SIsDir (config_path self))] in
  let ev2 := ev1 ++ [FileSystem (SIsDir dir)] in
  let ev3 := ev2 ++ [FileSystem (SMkdir dir)] in
  if FS.is_dir fs (config_path self) then
    if FS.is_dir fs dir then link_phase src dir options fs pr ev2
    else if get_flag options "force_create_directories" then
      match FS.mkdir fs dir with
      | Ok fs1 => link_phase src dir options fs1 pr ev3
      | Raise e => (Raise e, World fs pr ev3)
      end
    else (Raise (not_available dir), World fs pr ev2)
  else (Raise (not_installed self), World fs pr ev1).
Proof.
  intros Hs.
  assert (Hself : install_script self src options
                  = Nautilus_install_script self src options).
  { apply scripts_path_family in Hs as [[->|[->| ->]] _]; reflexivity. }
  assert (Hcap : contains (capabilities self) SCRIPTS = true).
  { apply scripts_path_family in Hs as [[->|[->| ->]] _]; reflexivity. }
  assert (Hlink : forall fs pr ev,
    (display_name <- getitem options "display_name" ;;
     target_link_path <- truediv dir display_name ;;
     logging_debug ("Target path: " +:+ Path.str target_link_path) ;;
     occupied <- path_exists target_link_path ;;
     if occupied then raise (already_exists target_link_path)
     else
       entries <- path_glob dir ;;
       returned <- scan_entries src target_link_path options entries ;;
       if returned then ret tt else os_symlink src target_link_path)%py
      (World fs pr ev)
    = link_phase src dir options fs pr ev).
  { intros fs pr ev. unfold link_phase, getitem, bind.
    destruct (options !! "display_name") as [[s|b]|]; try reflexivity.
    simpl. unfold logging_debug, path_exists, path_glob, observe, bind, emit. simpl.
    destruct (FS.exists_ fs _); simpl; rewrite <- ?app_assoc; simpl; [reflexivity|].
    unfold finish.
    destruct (scan_entries _ _ _ _ _) as [[[]|e] w']; reflexivity. }
  rewrite Hself. unfold Nautilus_install_script, check_scripts_support.
  rewrite Hcap. simpl negb. cbv iota.
  unfold bind at 1. rewrite check_installation_eq. simpl.
  destruct (FS.is_dir (files w) (config_path self)); [|reflexivity].
  unfold bind at 1. unfold get_scripts_path. rewrite Hs. unfold ret at 1.
  unfold bind at 1. unfold path_is_dir at 1, observe, bind at 1, emit at 1. simpl.
  destruct (FS.is_dir (files w) dir); simpl.
  - unfold bind at 1. unfold ret at 1. apply Hlink.
  - destruct (get_flag options "force_create_directories").
    + unfold bind at 1. unfold path_mkdir, perform, bind at 1, emit at 1. simpl.
      destruct (FS.mkdir (files w) dir) as [fs1|e]; [|reflexivity].
      apply Hlink.
    + reflexivity.
Qed.
Lemma find_filter_nil {A} (P : A -> bool) (l : list A) :
  List.filter P l = [] -> List.find P l = None.
Proof.
  induction l as [|a l IH]; simpl; [reflexivity|].
  destruct (P a); [discriminate|exact IH].
Qed.

Lemma find_filter_head {A} (P : A -> bool) (l : list A) (x : A) (r : list A) :
  List.filter P l = x :: r -> List.find P l = Some x.
Proof.
  induction l as [|a l IH]; simpl; [discriminate|].
  destruct (P a); [congruence|exact IH].
Qed.

Lemma logged_warnings_app (a b : list event) :
  logged_warnings (a ++ b) = logged_warnings a ++ logged_warnings b.
Proof. apply flat_map_app. Qed.

(** One warning for every link to the source script that the loop
    tolerates, none when it is to rename. *)
Lemma scan_events_warnings fs src tgt force entries :
  logged_warnings (scan_events fs src tgt force entries)
  = if force then []
    else map already_linked (List.filter (links_to fs src) entries).
Proof.
  induction entries as [|q entries IH]; simpl; [destruct force; reflexivity|].
  unfold logged_warnings in *. simpl.
  destruct (links_to fs src q) eqn:L.
  - rewrite (links_to_is_symlink _ _ _ L). simpl.
    destruct force; simpl; [reflexivity|]. rewrite IH. reflexivity.
  - destruct (FS.is_symlink fs q); simpl; exact IH.
Qed.

Section ExistingDirectory.

Variables (self : file_manager) (src : path) (options : kwargs) (w : world).
Variables (dir : path) (display_name : string).

Hypothesis scripts_dir : scripts_path self = Some dir.
Hypothesis config_present : FS.is_dir (files w) (config_path self) = true.
Hypothesis scripts_present : FS.is_dir (files w) dir = true.
Hypothesis named : options !! "display_name" = Some (VStr display_name).
Hypothesis plain_name : Path.is_name display_name = true.

Local Abbreviation target := (dir ++ [display_name]).

(** X1: for a display name that is a plain name (a single path
    component), with the configuration directory and the scripts
    directory present, nothing at the target path, and with
    [force_rename_existing] unset or no entry of the directory linking
    to the source script, [install_script] returns normally and adds
    exactly one entry to the file system: a symbolic link at the target
    path to the source script.  The warnings logged are one "already
    linked" message for each entry of the directory that links to the
    source script, in the order of the listing, and the call of
    [os.symlink] comes last. *)
Theorem install_script_creates_link :
  get_flag options "force_rename_existing" = false
  \/ links_in (files w) dir src = [] ->
  FS.lstat (files w) target = None ->
  exists w' evs,
    install_script self src options w = (Ok tt, w') /\
    files w' = files w ++ [(target, Symlink src)] /\
    processes w' = processes w /\
    events w' = events w ++ evs /\
    logged_warnings evs = map already_linked (links_in (files w) dir src) /\
    last evs = Some (FileSystem (SSymlink src target)).
Proof.
  intros Hcase Hfree.
  pose proof (scripts_dir_nonempty _ _ scripts_dir) as Hne.
  rewrite (install_script_start self src options w dir display_name) by assumption.
  simpl. rewrite (exists_absent _ _ Hfree).
  rewrite scan_entries_eq. simpl.
  assert (Hnone : (if get_flag options "force_rename_existing"
                   then List.find (links_to (files w) src) (FS.glob (files w) dir)
                   else None) = None).
  { destruct Hcase as [->| H]; [reflexivity|].
    rewrite (find_filter_nil _ _ H). destruct (get_flag _ _); reflexivity. }
  rewrite Hnone. simpl.
  unfold os_symlink, perform, bind, emit, FS.symlink. simpl.
  rewrite is_dir_parent_error by assumption. rewrite Hfree.
  eexists _, _. split; [reflexivity|]. simpl.
  split; [reflexivity|]. split; [reflexivity|].
  split; [rewrite <- !app_assoc; reflexivity|].
  split.
  - simpl. rewrite logged_warnings_app, scan_events_warnings. simpl.
    rewrite app_nil_r.
    destruct Hcase as [->| H]; [reflexivity|].
    unfold links_in in *. rewrite H. destruct (get_flag _ _); reflexivity.
  - change (?a :: ?b :: ?c :: ?d :: ?e :: ?l) with ([a; b; c; d; e] ++ l).
    rewrite !last_app. reflexivity.
Qed.

(** X2: for a display name that is a plain name (a single path
    component), with the configuration directory and the scripts
    directory present, nothing at the target path,
    [force_rename_existing] set, and one or more entries of the scripts
    directory linking to the source script, the first of them listed
    once, [install_script] renames the first of them, in the order of
    the directory listing, to the target path and returns at once: the
    other links to the source script stay, every other entry of the
    directory is as before, no warning is logged and no link is
    created. *)
Theorem install_script_renames_first_link (old_name : string) (others : list path) :
  get_flag options "force_rename_existing" = true ->
  links_in (files w) dir src = (dir ++ [old_name]) :: others ->
  ~ In (dir ++ [old_name]) others ->
  FS.lstat (files w) target = None ->
  exists w' evs,
    install_script self src options w = (Ok tt, w') /\
    files w' = FS.move (dir ++ [old_name]) target (files w) /\
    links_in (files w') dir src = target :: others /\
    (forall x, x <> old_name -> x <> display_name ->
       FS.lstat (files w') (dir ++ [x]) = FS.lstat (files w) (dir ++ [x])) /\
    events w' = events w ++ evs /\
    logged_warnings evs = [] /\
    forallb (fun e => negb (is_symlink_call e)) evs = true.
Proof.
  intros Hf Hu Hnot Hfree.
  pose proof (scripts_dir_nonempty _ _ scripts_dir) as Hne.
  assert (Hin : In (dir ++ [old_name]) (links_in (files w) dir src))
    by (rewrite Hu; left; reflexivity).
  apply filter_In in Hin as [Hglob Hold].
  assert (Hlink : FS.lstat (files w) (dir ++ [old_name]) = Some (Symlink src))
    by (apply links_to_lstat; assumption).
  assert (Hnames : old_name <> display_name) by congruence.
  rewrite (install_script_start self src options w dir display_name) by assumption.
  simpl. rewrite (exists_absent _ _ Hfree).
  rewrite scan_entries_eq. rewrite Hf. simpl.
  rewrite (find_filter_head _ _ _ _ Hu).
  rewrite (rename_to_free _ _ _ _ _ Hne scripts_present Hlink Hfree). simpl.
  eexists _, _. split; [reflexivity|]. simpl.
  split; [reflexivity|].
  split.
  { rewrite links_in_move by assumption. rewrite Hu. simpl.
    rewrite rebase_same_length by reflexivity.
    rewrite decide_True by reflexivity. f_equal.
    assert (Hall : forall q, In q others -> FS.rebase (dir ++ [old_name]) target q = q).
    { intros q Hq.
      assert (I : In q (links_in (files w) dir src)) by (rewrite Hu; right; exact Hq).
      apply filter_In in I as [I _]. apply glob_inv in I as [x ->]; [|assumption].
      rewrite rebase_same_length by (rewrite !length_app; reflexivity).
      rewrite decide_False; [reflexivity|]. intros E. apply Hnot. rewrite <- E. exact Hq. }
    clear Hu Hnot. induction others as [|q l IH]; simpl; [reflexivity|].
    rewrite Hall by (left; reflexivity). f_equal. apply IH.
    intros q' Hq'. apply Hall. right. exact Hq'. }
  split.
  { intros x Hx Hx'. rewrite lstat_move.
    - rewrite decide_False by (apply snoc_neq; assumption).
      rewrite decide_False by (apply snoc_neq; assumption). reflexivity.
    - rewrite !length_app. reflexivity.
    - rewrite !length_app. reflexivity.
    - apply snoc_neq. assumption.
    - assumption. }
  split; [rewrite <- !app_assoc; reflexivity|].
  split.
  - simpl. rewrite scan_events_warnings. reflexivity.
  - simpl. apply scan_events_no_symlink.
Qed.


End ExistingDirectory.
Module FSFacts2.
Import FS.

Lemma lstat_unlink fs p k :
  lstat (unlink p fs) k = if decide (k = p) then None else lstat fs k.
Proof.
  induction fs as [|[q n] fs IH]; simpl.
  - destruct (decide (k = p)); reflexivity.
  - destruct (decide (q = p)) as [->|N]; simpl.
    + rewrite IH. destruct (decide (k = p)) as [->|N'].
      * reflexivity.
      * rewrite decide_False by congruence. reflexivity.
    + destruct (decide (q = k)) as [->|N'].
      * rewrite decide_False by assumption. reflexivity.
      * exact IH.
Qed.

Lemma rebase_self src dst : rebase src dst src = dst.
Proof.
  unfold rebase. rewrite (bool_decide_eq_true_2 (src `prefix_of` src)) by reflexivity.
  rewrite drop_all. apply app_nil_r.
Qed.

Lemma rebase_eq_dst src dst q : rebase src dst q = dst -> q = src \/ q = dst.
Proof.
  unfold rebase. destruct (bool_decide (src `prefix_of` q)) eqn:P; [|auto].
  apply bool_decide_eq_true in P as [r ->]. rewrite drop_app_length.
  intros E. left.
  assert (r = []) as ->.
  { apply (f_equal length) in E. rewrite length_app in E.
    destruct r; [reflexivity|simpl in E; lia]. }
  apply app_nil_r.
Qed.

Lemma lstat_move_cons src dst q n fs k :
  lstat (move src dst ((q, n) :: fs)) k =
  if decide (rebase src dst q = k) then Some n else lstat (move src dst fs) k.
Proof. reflexivity. Qed.

(** After [src] was moved to a path where nothing is, the entry of
    [src] is found there. *)
Lemma lstat_move_dst fs src dst :
  lstat fs dst = None -> lstat (move src dst fs) dst = lstat fs src.
Proof.
  induction fs as [|[q n] fs IH]; [reflexivity|].
  rewrite lstat_move_cons. simpl.
  destruct (decide (q = dst)) as [->|Hq]; [discriminate|]. intros Hd.
  specialize (IH Hd).
  destruct (decide (q = src)) as [->|Hs].
  - rewrite rebase_self. rewrite decide_True by reflexivity. reflexivity.
  - rewrite decide_False; [exact IH|].
    intros E. apply rebase_eq_dst in E as [E|E]; contradiction.
Qed.

(** A renaming that succeeds puts the entry at its new path. *)
Lemma rename_ok_target fs src dst n fs' :
  rename fs src dst = Ok fs' -> lstat fs src = Some n -> lstat fs' dst = Some n.
Proof.
  unfold rename. intros H Hn. rewrite Hn in H.
  destruct (parent_error fs dst); [discriminate|].
  destruct (decide (src = dst)) as [->|N]; [congruence|].
  destruct (bool_decide (src `prefix_of` dst)); [discriminate|].
  assert (U : lstat (move src dst (unlink dst fs)) dst = Some n).
  { rewrite lstat_move_dst.
    - rewrite lstat_unlink. rewrite decide_False by assumption. exact Hn.
    - rewrite lstat_unlink. rewrite decide_True by reflexivity. reflexivity. }
  destruct (lstat fs dst) as [m|] eqn:D.
  - destruct n, m; try discriminate;
      try (injection H as <-; exact U).
    destruct (has_children fs dst); [discriminate|]. injection H as <-. exact U.
  - assert (fs' = move src dst fs) as -> by (destruct n; congruence).
    rewrite lstat_move_dst by assumption. exact Hn.
Qed.

Lemma mkdir_ok fs p fs' : mkdir fs p = Ok fs' -> fs' = fs ++ [(p, Directory)].
Proof.
  unfold mkdir. destruct (parent_error fs p); [discriminate|].
  destruct (lstat fs p); [discriminate|]. congruence.
Qed.

Lemma symlink_ok fs src dst fs' :
  symlink fs src dst = Ok fs' ->
  fs' = fs ++ [(dst, Symlink src)] /\ lstat fs dst = None.
Proof.
  unfold symlink. destruct (parent_error fs dst); [discriminate|].
  destruct (lstat fs dst); [discriminate|]. intros [= <-]. auto.
Qed.

(** A directory that was just made is a directory, and is empty if
    nothing was recorded below its path. *)
Lemma is_dir_made fs p : lstat fs p = None -> is_dir (fs ++ [(p, Directory)]) p = true.
Proof.
  intros H. unfold is_dir, stat, realpath, MAXSYMLINKS. simpl.
  rewrite lstat_app, H. rewrite decide_True by reflexivity.
  rewrite lstat_app, H. rewrite decide_True by reflexivity. reflexivity.
Qed.

Lemma child_of_self dir : child_of dir dir = false.
Proof.
  unfold child_of. rewrite (bool_decide_eq_true_2 (dir = dir)) by reflexivity.
  apply andb_false_r.
Qed.

Lemma glob_made fs dir : glob (fs ++ [(dir, Directory)]) dir = glob fs dir.
Proof. rewrite glob_app, child_of_self. apply app_nil_r. Qed.

Lemma glob_nil_lstat fs dir x : dir <> [] -> glob fs dir = [] -> lstat fs (dir ++ [x]) = None.
Proof.
  intros Hd H. destruct (lstat fs (dir ++ [x])) as [n|] eqn:E; [|reflexivity].
  apply (In_glob _ _ _ _ Hd) in E. rewrite H in E. destruct E.
Qed.

End FSFacts2.
Import FSFacts2.

Lemma config_path_nonempty self : config_path self <> [].
Proof. destruct self; discriminate. Qed.

Lemma scripts_parent_ok self dir fs :
  scripts_path self = Some dir -> FS.is_dir fs (config_path self) = true ->
  FS.parent_error fs dir = None.
Proof.
  intros Hs Hc. apply scripts_path_family in Hs as [_ ->].
  apply is_dir_parent_error; [apply config_path_nonempty|assumption].
Qed.

(** The second half of the method fails without any change, and returns
    only with a link to the source script at the target path. *)
Lemma link_phase_raise src dir options fs pr ev e w' :
  link_phase src dir options fs pr ev = (Raise e, w') ->
  files w' = fs /\ processes w' = pr.
Proof.
  unfold link_phase.
  destruct (options !! "display_name") as [[s|b]|]; try (intros [= _ <-]; auto).
  destruct (FS.exists_ fs _); [intros [= _ <-]; auto|].
  rewrite scan_entries_eq. simpl.
  destruct (if get_flag options "force_rename_existing" then _ else None) as [q|].
  - destruct (FS.rename fs q _); simpl; [discriminate|]. intros [= _ <-]; auto.
  - simpl. unfold os_symlink, perform, bind, emit. simpl.
    destruct (FS.symlink fs src _); [discriminate|]. intros [= _ <-]; auto.
Qed.

Lemma link_phase_ok src dir options fs pr ev w' :
  link_phase src dir options fs pr ev = (Ok tt, w') ->
  exists s,
    options !! "display_name" = Some (VStr s) /\
    FS.exists_ fs (Path.joinpath dir s) = false /\
    FS.lstat (files w') (Path.joinpath dir s) = Some (Symlink src) /\
    processes w' = pr.
Proof.
  unfold link_phase.
  destruct (options !! "display_name") as [[s|b]|]; try discriminate.
  destruct (FS.exists_ fs _) eqn:X; [discriminate|].
  rewrite scan_entries_eq. simpl. intros H. exists s.
  split; [reflexivity|]. split; [assumption|].
  destruct (get_flag options "force_rename_existing").
  - destruct (List.find _ _) as [q|] eqn:F.
    + apply find_some in F as [_ L]. apply links_to_lstat in L.
      destruct (FS.rename fs q _) as [fs'|] eqn:R; simpl in H; [|discriminate].
      injection H as <-. simpl. split; [|reflexivity].
      eapply rename_ok_target; eassumption.
    + simpl in H. unfold os_symlink, perform, bind, emit in H. simpl in H.
      destruct (FS.symlink fs src _) as [fs'|] eqn:S; [|discriminate].
      injection H as <-. simpl. apply symlink_ok in S as [-> S].
      rewrite lstat_app, S. rewrite decide_True by reflexivity. auto.
  - simpl in H. unfold os_symlink, perform, bind, emit in H. simpl in H.
    destruct (FS.symlink fs src _) as [fs'|] eqn:S; [|discriminate].
    injection H as <-. simpl. apply symlink_ok in S as [-> S].
    rewrite lstat_app, S. rewrite decide_True by reflexivity. auto.
Qed.

(** X8: a failing [install_script] leaves the file system as it was,
    with one exception.  Whatever exception is raised, either no entry
    has been changed, or the scripts directory was missing,
    [force_create_directories] was set, and the only change is that
    directory, created before the failure. *)
Theorem install_script_failure_leaves_files
    (self : file_manager) (src : path) (options : kwargs) (w : world)
    (e : exn) (w' : world) :
  install_script self src options w = (Raise e, w') ->
  processes w' = processes w /\
  (files w' = files w \/
   exists dir,
     scripts_path self = Some dir /\
     FS.is_dir (files w) dir = false /\
     get_flag options "force_create_directories" = true /\
     files w' = files w ++ [(dir, Directory)]).
Proof.
  destruct (scripts_path self) as [dir|] eqn:Hs.
  - rewrite (install_script_eq _ _ _ _ _ Hs). simpl.
    destruct (FS.is_dir (files w) (config_path self)); [|intros [= _ <-]; auto].
    destruct (FS.is_dir (files w) dir) eqn:D.
    { intros H. apply link_phase_raise in H as [-> ->]. auto. }
    destruct (get_flag options "force_create_directories") eqn:F;
      [|intros [= _ <-]; auto].
    destruct (FS.mkdir (files w) dir) as [fs1|e1] eqn:Mk; [|intros [= _ <-]; auto].
    intros H. apply link_phase_raise in H as [-> ->]. split; [reflexivity|].
    right. exists dir. apply mkdir_ok in Mk. auto.
  - destruct self; try discriminate; intros [= _ <-]; auto.
Qed.

(** X9: whenever [install_script] returns normally, the file manager
    has a scripts path, the display name was given as a string, the
    configuration directory was there, and afterwards the scripts path
    joined with the display name is a symbolic link whose target is the
    source script: by creation or by renaming, never anything else. *)
Theorem install_script_success_links_target
    (self : file_manager) (src : path) (options : kwargs) (w w' : world) :
  install_script self src options w = (Ok tt, w') ->
  exists dir s,
    scripts_path self = Some dir /\
    options !! "display_name" = Some (VStr s) /\
    FS.is_dir (files w) (config_path self) = true /\
    FS.readlink (files w') (Path.joinpath dir s) = Ok src /\
    processes w' = processes w.
Proof.
  destruct (scripts_path self) as [dir|] eqn:Hs.
  - rewrite (install_script_eq _ _ _ _ _ Hs). simpl.
    destruct (FS.is_dir (files w) (config_path self)); [|discriminate].
    assert (G : forall fs ev, link_phase src dir options fs (processes w) ev = (Ok tt, w') ->
                exists dir0 s, Some dir = Some dir0 /\
                  options !! "display_name" = Some (VStr s) /\ true = true /\
                  FS.readlink (files w') (Path.joinpath dir0 s) = Ok src /\
                  processes w' = processes w).
    { intros fs ev H. apply link_phase_ok in H as (s & Hn & _ & L & P).
      exists dir, s. unfold FS.readlink. rewrite L. auto. }
    destruct (FS.is_dir (files w) dir); [apply G|].
    destruct (get_flag options "force_create_directories"); [|discriminate].
    destruct (FS.mkdir (files w) dir); [apply G|discriminate].
  - destruct self; discriminate.
Qed.
Section MissingDirectory.

Variables (self : file_manager) (src : path) (options : kwargs) (w : world).
Variable dir : path.

Hypothesis scripts_dir : scripts_path self = Some dir.
Hypothesis config_present : FS.is_dir (files w) (config_path self) = true.

(** X4: with the configuration directory present, when the scripts
    path is not a directory and [force_create_directories] is unset or
    absent, [install_script] raises the "not available" [ValueError]
    right after the two directory tests: nothing is changed, and the
    other options are not looked at, not even a missing display
    name. *)
Theorem install_script_directory_not_available :
  FS.is_dir (files w) dir = false ->
  get_flag options "force_create_directories" = false ->
  install_script self src options w
  = (Raise (not_available dir),
     World (files w) (processes w)
       (events w ++ [FileSystem (SIsDir (config_path self)); FileSystem (SIsDir dir)])).
Proof.
  intros Hd Hf. rewrite (install_script_eq _ _ _ _ _ scripts_dir). simpl.
  rewrite config_present, Hd, Hf. rewrite <- app_assoc. reflexivity.
Qed.

(** X5: with the configuration directory present, nothing at the
    scripts path nor below it, [force_create_directories] set, and a
    display name given that is a plain name (a single path component),
    [install_script] creates the scripts directory and then the link
    in it.  The world afterwards is the one before with two more
    entries, the directory and the link, and seven more events, in the
    order of the method's statements. *)
Theorem install_script_creates_directory (display_name : string) :
  FS.lstat (files w) dir = None ->
  FS.glob (files w) dir = [] ->
  get_flag options "force_create_directories" = true ->
  options !! "display_name" = Some (VStr display_name) ->
  Path.is_name display_name = true ->
  install_script self src options w
  = (Ok tt,
     World (files w ++ [(dir, Directory); (dir ++ [display_name], Symlink src)])
       (processes w)
       (events w ++ [FileSystem (SIsDir (config_path self));
                     FileSystem (SIsDir dir);
                     FileSystem (SMkdir dir);
                     Logging DEBUG ("Target path: " +:+ Path.str (dir ++ [display_name]));
                     FileSystem (SExists (dir ++ [display_name]));
                     FileSystem (SGlob dir);
                     FileSystem (SSymlink src (dir ++ [display_name]))])).
Proof.
  intros Hnone Hempty Hf Hn Hname.
  pose proof (scripts_dir_nonempty _ _ scripts_dir) as Hne.
  assert (Hd : FS.is_dir (files w) dir = false).
  { unfold FS.is_dir. rewrite stat_absent by assumption. reflexivity. }
  assert (Hmk : FS.mkdir (files w) dir = Ok (files w ++ [(dir, Directory)])).
  { unfold FS.mkdir. rewrite (scripts_parent_ok _ _ _ scripts_dir config_present).
    rewrite Hnone. reflexivity. }
  assert (Hfree : FS.lstat (files w ++ [(dir, Directory)]) (dir ++ [display_name]) = None).
  { rewrite lstat_app. rewrite glob_nil_lstat by assumption.
    rewrite decide_False; [reflexivity|].
    intros E. apply (f_equal length) in E. rewrite length_app in E. simpl in E. lia. }
  rewrite (install_script_eq _ _ _ _ _ scripts_dir). simpl.
  rewrite config_present, Hd, Hf, Hmk.
  unfold link_phase. rewrite Hn. rewrite (joinpath_name _ _ Hname). simpl.
  rewrite (exists_absent _ _ Hfree).
  rewrite glob_made, Hempty. simpl.
  unfold os_symlink, perform, bind, emit, FS.symlink. simpl.
  rewrite is_dir_parent_error by (auto using is_dir_made).
  rewrite Hfree. simpl. rewrite <- !app_assoc. reflexivity.
Qed.

(** X6: with the configuration directory present, when
    [force_create_directories] is set and the scripts path is held by
    something that is not a directory (a regular file, or a link that
    does not lead to a directory), [mkdir] fails with
    [FileExistsError]; [install_script] lets the error through, and
    nothing is changed. *)
Theorem install_script_directory_blocked (n : node) :
  FS.is_dir (files w) dir = false ->
  FS.lstat (files w) dir = Some n ->
  get_flag options "force_create_directories" = true ->
  install_script self src options w
  = (Raise (OSError FileExistsError dir),
     World (files w) (processes w)
       (events w ++ [FileSystem (SIsDir (config_path self));
                     FileSystem (SIsDir dir);
                     FileSystem (SMkdir dir)])).
Proof.
  intros Hd Hn Hf. rewrite (install_script_eq _ _ _ _ _ scripts_dir). simpl.
  rewrite config_present, Hd, Hf.
  unfold FS.mkdir. rewrite (scripts_parent_ok _ _ _ scripts_dir config_present).
  rewrite Hn. rewrite <- !app_assoc. reflexivity.
Qed.

(** X10: the scripts directory is created before the display name is
    looked up.  With the configuration directory present,
    [force_create_directories] set, nothing at the scripts path and no
    [display_name] among the options, [install_script] raises
    [KeyError], and the directory it created stays behind. *)
Theorem install_script_directory_left_behind :
  FS.lstat (files w) dir = None ->
  get_flag options "force_create_directories" = true ->
  options !! "display_name" = None ->
  exists w',
    install_script self src options w = (Raise (KeyError "display_name"), w') /\
    files w' = files w ++ [(dir, Directory)] /\
    FS.is_dir (files w) dir = false /\
    FS.is_dir (files w') dir = true.
Proof.
  intros Hnone Hf Hn.
  assert (Hd : FS.is_dir (files w) dir = false).
  { unfold FS.is_dir. rewrite stat_absent by assumption. reflexivity. }
  rewrite (install_script_eq _ _ _ _ _ scripts_dir). simpl.
  rewrite config_present, Hd, Hf.
  unfold FS.mkdir. rewrite (scripts_parent_ok _ _ _ scripts_dir config_present).
  rewrite Hnone. unfold link_phase. rewrite Hn.
  eexists. split; [reflexivity|]. simpl.
  split; [reflexivity|]. split; [reflexivity|]. apply is_dir_made. assumption.
Qed.

End MissingDirectory.

(** X7: without the configuration directory both installers stop at
    the first test.  For a file manager with the scripts capability
    [install_script], and for Nemo [install_action], raise the
    "probably not installed" [ValueError] after a single [is_dir] call,
    whatever the options and whatever else is in the file system. *)
Theorem installers_need_configuration_directory
    (self : file_manager) (src : path) (options : kwargs) (w : world) :
  FS.is_dir (files w) (config_path self) = false ->
  let w' := World (files w) (processes w)
              (events w ++ [FileSystem (SIsDir (config_path self))]) in
  (contains (capabilities self) SCRIPTS = true ->
   install_script self src options w = (Raise (not_installed self), w')) /\
  (self = Nemo ->
   install_action self src options w = (Raise (not_installed self), w')).
Proof.
  intros H w'. split.
  - intros Hcap. destruct (scripts_path self) as [dir|] eqn:Hs.
    + rewrite (install_script_eq _ _ _ _ _ Hs). simpl. rewrite H. reflexivity.
    + unfold scripts_path in Hs. rewrite Hcap in Hs. discriminate.
  - intros ->. rewrite Nemo_install_action_eq. simpl. simpl in H. rewrite H. reflexivity.
Qed.
(** ** More about [install_action] *)

Module WriteFacts.
Import FS.

Lemma store_store fs q n : store q n (store q n fs) = store q n fs.
Proof.
  induction fs as [|[r m] fs IH]; simpl.
  - rewrite decide_True by reflexivity. reflexivity.
  - destruct (decide (r = q)) as [->|N]; simpl.
    + rewrite decide_True by reflexivity. reflexivity.
    + rewrite decide_False by assumption. rewrite IH. reflexivity.
Qed.

Lemma store_length_present fs q n m :
  lstat fs q = Some m -> length (store q n fs) = length fs.
Proof.
  induction fs as [|[r k] fs IH]; simpl; [discriminate|].
  destruct (decide (r = q)); simpl; [reflexivity|]. intros H. rewrite IH by assumption.
  reflexivity.
Qed.

(** A chain of links that does not end at [q] is not changed by
    writing at [q], when [q] is no link. *)
Lemma follow_store_other fuel fs p r q c :
  follow fuel fs p = Some r -> r <> q ->
  (forall t, lstat fs q <> Some (Symlink t)) ->
  follow fuel (store q (File c) fs) p = Some r.
Proof.
  intros F N Hq. revert p F. induction fuel as [|fuel IH]; intros p; simpl;
    rewrite lstat_store; destruct (decide (q = p)) as [->|Np];
    destruct (lstat fs p) as [[| |t]|] eqn:E;
    try (intros [= <-]; congruence); try discriminate; auto.
  all: exfalso; eapply Hq; reflexivity.
Qed.

(** What a path leads to stays, unless it leads to the file written. *)
Lemma stat_store_other fs p q c n :
  stat fs p = Some n ->
  (forall t, lstat fs q <> Some (Symlink t)) ->
  lstat fs q <> Some n ->
  stat (store q (File c) fs) p = Some n.
Proof.
  unfold stat, realpath. intros H Hq Hn.
  destruct (follow MAXSYMLINKS fs p) as [r|] eqn:F; [|discriminate].
  assert (N : r <> q) by (intros ->; contradiction).
  rewrite (follow_store_other _ _ _ _ _ c F N Hq).
  rewrite lstat_store. rewrite decide_False by congruence. exact H.
Qed.

Lemma follow_end fuel fs p q :
  follow fuel fs p = Some q -> forall t, lstat fs q <> Some (Symlink t).
Proof.
  revert p. induction fuel as [|fuel IH]; intros p; simpl.
  - destruct (lstat fs p) as [[| |t]|] eqn:E; try discriminate;
      intros [= <-]; congruence.
  - destruct (lstat fs p) as [[| |t]|] eqn:E; try (intros [= <-]; congruence).
    apply IH.
Qed.

(** A write that succeeded: where it went and what it met. *)
Lemma write_text_ok fs p c fs' :
  write_text fs p c = Ok fs' ->
  exists q,
    realpath fs p = Some q /\ parent_error fs q = None /\
    lstat fs q <> Some Directory /\ fs' = store q (File c) fs.
Proof.
  unfold write_text.
  destruct (realpath fs p) as [q|]; [|discriminate].
  destruct (parent_error fs q) eqn:E; [discriminate|].
  intros H. exists q. split; [reflexivity|]. split; [assumption|].
  destruct (lstat fs q) as [[]|]; split; congruence.
Qed.

(** Writing the same text again changes nothing. *)
Lemma write_text_again fs p c fs' :
  write_text fs p c = Ok fs' -> write_text fs' p c = Ok fs'.
Proof.
  intros H. apply write_text_ok in H as (q & R & P & D & ->).
  pose proof (follow_end _ _ _ _ R) as L.
  unfold write_text, realpath. unfold realpath in R.
  rewrite (follow_store _ _ _ _ c R).
  assert (P' : parent_error (store q (File c) fs) q = None).
  { unfold parent_error in *.
    destruct (stat fs (Path.parent q)) as [[]|] eqn:S; try discriminate.
    rewrite (stat_store_other _ _ _ c _ S L D). reflexivity. }
  rewrite P'. rewrite lstat_store. rewrite decide_True by reflexivity.
  rewrite store_store. reflexivity.
Qed.

Lemma is_dir_after_write fs p c fs' d :
  write_text fs p c = Ok fs' -> is_dir fs d = true -> is_dir fs' d = true.
Proof.
  intros H Hd. apply write_text_ok in H as (q & R & P & D & ->).
  pose proof (follow_end _ _ _ _ R) as L.
  unfold is_dir in *. destruct (stat fs d) as [[]|] eqn:S; try discriminate.
  rewrite (stat_store_other _ _ _ c _ S L D). reflexivity.
Qed.

(** A path that is no link leads to itself. *)
Lemma realpath_no_link fs p :
  (forall t, lstat fs p <> Some (Symlink t)) -> realpath fs p = Some p.
Proof.
  intros H. unfold realpath, MAXSYMLINKS. simpl.
  destruct (lstat fs p) as [[| |t]|]; try reflexivity. exfalso. eapply H. reflexivity.
Qed.

End WriteFacts.
Import WriteFacts.

(** X12: writing an action file can be repeated.  If Nemo's
    [install_action] has returned normally, a second call with the same
    arguments returns normally too, and leaves the file system exactly
    as the first call left it. *)
Theorem install_action_twice
    (source_path : path) (options : kwargs) (w w1 : world) :
  install_action Nemo source_path options w = (Ok tt, w1) ->
  exists w2,
    install_action Nemo source_path options w1 = (Ok tt, w2) /\
    files w2 = files w1.
Proof.
  rewrite !Nemo_install_action_eq. simpl.
  destruct (FS.is_dir (files w) _) eqn:D; [|discriminate].
  destruct (options !! "name") as [v|]; [|discriminate].
  destruct (FS.write_text (files w) _ _) as [fs'|] eqn:W; [|discriminate].
  intros [= <-]. simpl.
  rewrite (is_dir_after_write _ _ _ _ _ W D).
  rewrite (write_text_again _ _ _ _ W).
  eexists. split; reflexivity.
Qed.

Section ActionFile.

Variables (source_path : path) (options : kwargs) (w : world).
Variable action_name : value.

Hypothesis config_present : FS.is_dir (files w) (config_path Nemo) = true.
Hypothesis named : options !! "name" = Some action_name.
Hypothesis plain_name : Path.is_name (value_str action_name +:+ ".nemo_action") = true.

Local Abbreviation actions := (config_path Nemo ++ ["actions"]).
Local Abbreviation file := (actions ++ [value_str action_name +:+ ".nemo_action"]).

Lemma nemo_action_file_plain : nemo_action_file action_name = file.
Proof. unfold nemo_action_file. apply joinpath_name. assumption. Qed.

(** X11: Nemo's [install_action] overwrites an action file that is
    already there, without any test.  With the configuration directory
    and the actions directory present, a [name] supplied that makes a
    plain file name, and a regular file at the path of the action
    file, it returns normally, the file then holds the rendered
    template, every other path is as before and no entry has been
    added. *)
Theorem install_action_overwrites (old : string) :
  FS.is_dir (files w) actions = true ->
  FS.lstat (files w) file = Some (File old) ->
  exists w',
    install_action Nemo source_path options w = (Ok tt, w') /\
    FS.lstat (files w') file = Some (File (nemo_action options)) /\
    (forall p, p <> file -> FS.lstat (files w') p = FS.lstat (files w) p) /\
    length (files w') = length (files w).
Proof.
  intros Hd Hold.
  rewrite Nemo_install_action_eq. simpl. simpl in config_present.
  rewrite config_present, named, nemo_action_file_plain.
  assert (W : FS.write_text (files w) file (nemo_action options)
              = Ok (FS.store file (File (nemo_action options)) (files w))).
  { unfold FS.write_text. rewrite realpath_no_link by congruence.
    rewrite is_dir_parent_error by (assumption || discriminate).
    rewrite Hold. reflexivity. }
  rewrite W. eexists. split; [reflexivity|]. simpl.
  split; [rewrite lstat_store; rewrite decide_True by reflexivity; reflexivity|].
  split.
  - intros p Hp. rewrite lstat_store. rewrite decide_False by congruence. reflexivity.
  - eapply store_length_present. eassumption.
Qed.

(** X13: Nemo's [install_action] never creates the actions directory:
    there is no counterpart of [force_create_directories].  With the
    configuration directory present, a [name] supplied that makes a
    plain file name, and nothing at the actions path nor at the path
    of the action file, [open] fails with [FileNotFoundError], which
    is let through, and nothing is written. *)
Theorem install_action_without_directory :
  FS.lstat (files w) actions = None ->
  FS.lstat (files w) file = None ->
  install_action Nemo source_path options w
  = (Raise (OSError FileNotFoundError file),
     World (files w) (processes w)
       (events w ++ [FileSystem (SIsDir (config_path Nemo));
                     FileSystem (SWrite file (nemo_action options))])).
Proof.
  intros Hd Hfree.
  rewrite Nemo_install_action_eq. simpl. simpl in config_present.
  rewrite config_present, named, nemo_action_file_plain.
  unfold FS.write_text. rewrite realpath_no_link by congruence.
  unfold FS.parent_error.
  rewrite parent_snoc by discriminate. rewrite stat_absent by assumption.
  rewrite <- (app_assoc (events w)). reflexivity.
Qed.

End ActionFile.

(** C6, amended: a call of Nemo's [install_action] that supplies a
    [name], with the configuration directory present, the directory
    that is to hold the action file present, and nothing or a regular
    file at the path of the action file, returns normally, after one
    directory test and one write, and the action file then holds the
    text of the template in which every entry shows the value supplied
    for its key, as it is, or else keeps its placeholder ([field]):
    no missing field makes the rendering fail. *)
Theorem nemo_action_rendering
    (source_path : path) (options : kwargs) (w : world) (action_name : value) :
  FS.is_dir (files w) (config_path Nemo) = true ->
  options !! "name" = Some action_name ->
  FS.is_dir (files w) (Path.parent (nemo_action_file action_name)) = true ->
  (FS.lstat (files w) (nemo_action_file action_name) = None \/
   exists old, FS.lstat (files w) (nemo_action_file action_name) = Some (File old)) ->
  exists w',
    install_action Nemo source_path options w = (Ok tt, w') /\
    events w' = events w
                ++ [FileSystem (SIsDir (config_path Nemo));
                    FileSystem (SWrite (nemo_action_file action_name)
                                  (nemo_action options))] /\
    FS.lstat (files w') (nemo_action_file action_name)
    = Some (File (nemo_action options)) /\
    field options "name" = value_str action_name /\
    (forall p, p <> nemo_action_file action_name ->
       FS.lstat (files w') p = FS.lstat (files w) p).
Proof.
  intros Hconfig Hname Hparent Hfile.
  rewrite Nemo_install_action_eq. simpl. simpl in Hconfig.
  rewrite Hconfig, Hname.
  assert (W : FS.write_text (files w) (nemo_action_file action_name) (nemo_action options)
              = Ok (FS.store (nemo_action_file action_name)
                      (File (nemo_action options)) (files w))).
  { unfold FS.write_text.
    rewrite realpath_no_link
      by (intros t; destruct Hfile as [H|[old H]]; rewrite H; discriminate).
    unfold FS.parent_error. unfold FS.is_dir in Hparent.
    destruct (FS.stat (files w) _) as [[]|]; try discriminate.
    destruct Hfile as [H|[old H]]; rewrite H; reflexivity. }
  rewrite W. eexists. split; [reflexivity|]. simpl.
  split; [rewrite <- app_assoc; reflexivity|].
  split; [rewrite lstat_store; rewrite decide_True by reflexivity; reflexivity|].
  split; [unfold field; rewrite Hname; reflexivity|].
  intros p Hp. rewrite lstat_store. rewrite decide_False by congruence. reflexivity.
Qed.

(** The action of the sample, without a comment, in the sample home
    directory. *)
Lemma nemo_action_rendering_witness :
  exists w',
    install_action Nemo Sample.script Sample.action_without_comment
      (Sample.world_of Sample.home) = (Ok tt, w') /\
    events w' = [] ++ [FileSystem (SIsDir (config_path Nemo));
                       FileSystem (SWrite (nemo_action_file (VStr "Batch Rename"))
                                     (nemo_action Sample.action_without_comment))] /\
    FS.lstat (files w') (nemo_action_file (VStr "Batch Rename"))
    = Some (File (nemo_action Sample.action_without_comment)) /\
    field Sample.action_without_comment "name" = value_str (VStr "Batch Rename") /\
    (forall p, p <> nemo_action_file (VStr "Batch Rename") ->
       FS.lstat (files w') p = FS.lstat Sample.home p).
Proof.
  refine (nemo_action_rendering Sample.script Sample.action_without_comment
            (Sample.world_of Sample.home) (VStr "Batch Rename") _ _ _ _);
    [vm_compute; reflexivity .. | left; vm_compute; reflexivity].
Defined.

(** C6 as stated does not hold: an action without a [name] is not
    rendered at all.  The comment and the extensions are supplied, the
    directories are there; the call ends in [KeyError] for the missing
    field, and no file is written. *)
Theorem install_action_without_name :
  let w := Sample.world_of Sample.home in
  let r := install_action Nemo Sample.script Cases.action_without_name w in
  Cases.action_without_name !! "name" = None /\
  FS.is_dir (files w) (config_path Nemo) = true /\
  FS.is_dir (files w) (config_path Nemo ++ ["actions"]) = true /\
  fst r = Raise (KeyError "name") /\
  files (snd r) = files w /\
  events (snd r) = [FileSystem (SIsDir (config_path Nemo))].
Proof. vm_compute. repeat split. Qed.

(** X14: [install_action] raises [NotImplementedError] for Caja, the
    KDE file manager, PCManFM and Thunar, and for no other file
    manager.  Each of the four lists [ACTIONS] among its capabilities,
    and for each the call raises at once, before any capability or
    installation test and without any effect. *)
Theorem install_action_not_implemented_iff
    (self : file_manager) (src : path) (options : kwargs) (w : world) :
  (fst (install_action self src options w) = Raise NotImplementedError
   <-> In self [Caja; KdefileManager; PcManFm; Thunar]) /\
  (In self [Caja; KdefileManager; PcManFm; Thunar] ->
   contains (capabilities self) ACTIONS = true /\
   install_action self src options w = (Raise NotImplementedError, w)).
Proof.
  split.
  - split.
    + destruct self; simpl; auto 6; try discriminate.
      change (fst (Nemo_install_action Nemo src options w) = Raise NotImplementedError
              -> Caja = Nemo \/ KdefileManager = Nemo \/ PcManFm = Nemo \/ Thunar = Nemo \/ False).
      intros H. exfalso. revert H.
      change (install_action Nemo src options w) with (Nemo_install_action Nemo src options w).
      fold (install_action Nemo src options w). rewrite Nemo_install_action_eq. simpl.
      destruct (FS.is_dir _ _); [|discriminate].
      destruct (options !! "name"); [|discriminate].
      destruct (FS.write_text _ _ _) eqn:W; [discriminate|].
      apply write_text_raises in W as (k & p & ->). discriminate.
    + intros [<-|[<-|[<-|[<-|[]]]]]; reflexivity.
  - intros [<-|[<-|[<-|[<-|[]]]]]; split; reflexivity.
Qed.
(** ** The template keys and the installation probe *)

(** Substitution looks a mapping up at the keys of the template only. *)
Lemma substitute_agree (fuel : nat) (f g : string -> option string) (s : string) :
  (forall k, In k (Template.keys fuel s) -> f k = g k) ->
  Template.substitute fuel f s = Template.substitute fuel g s.
Proof.
  revert s. induction fuel as [|fuel IH]; intros s H; [reflexivity|].
  destruct s as [|c s]; [reflexivity|]. simpl in *.
  destruct (Ascii.eqb c "$").
  - destruct (Template.match_after_delimiter s) as [rest|id text rest|].
    + rewrite (IH rest) by assumption. reflexivity.
    + rewrite (H id) by (left; reflexivity).
      rewrite (IH rest) by (intros k Hk; apply H; right; exact Hk). reflexivity.
    + rewrite (IH s) by assumption. reflexivity.
  - rewrite (IH s) by assumption. reflexivity.
Qed.

(** X15: the keys that [required_keys] returns are all that the
    rendering of the action template depends on: two option
    dictionaries that agree on the required keys of a file manager give
    the same text under [safe_substitute]. *)
Theorem required_keys_determine_rendering
    (self : file_manager) (options1 options2 : kwargs) :
  (forall key, In key (required_keys self) -> options1 !! key = options2 !! key) ->
  Template.safe_substitute (action_template self) options1
  = Template.safe_substitute (action_template self) options2.
Proof.
  intros H. unfold Template.safe_substitute. apply substitute_agree.
  intros k Hk. rewrite (H k Hk). reflexivity.
Qed.

(** X16: [is_installed] answers by the outcome of the probe alone.
    It returns [True] exactly when the program exits with the status
    0, [False] exactly when it exits with another status, and raises
    exactly when the program cannot be launched; in each case it has
    made one subprocess call and left the file system alone. *)
Theorem is_installed_answer (self : file_manager) (w : world) :
  (fst (is_installed self w) = Ok true
   <-> processes w [executable self; "--version"] = Exited 0) /\
  (fst (is_installed self w) = Ok false
   <-> exists returncode,
         returncode <> 0%Z /\
         processes w [executable self; "--version"] = Exited returncode) /\
  ((exists e, fst (is_installed self w) = Raise e)
   <-> exists e, processes w [executable self; "--version"] = LaunchFailed e) /\
  snd (is_installed self w)
  = World (files w) (processes w)
      (events w ++ [Subprocess [executable self; "--version"]]).
Proof.
  rewrite is_installed_eq. simpl.
  destruct (processes w _) as [rc|e]; simpl.
  - destruct (Z.eqb_spec rc 0) as [->|Hrc]; repeat split.
    + intros [= ]. 
    + intros (rc' & Hne & [= <-]). congruence.
    + intros (e & [= ]).
    + intros (e & [= ]).
    + intros [= ].
    + intros [= ]. congruence.
    + intros _. exists rc. split; [assumption|reflexivity].
    + intros (e & [= ]).
    + intros (e & [= ]).
  - repeat split.
    + intros [= ].
    + intros [= ].
    + intros [= ].
    + intros (rc & _ & [= ]).
    + intros _. exists e. reflexivity.
    + intros _. eexists. reflexivity.
Qed.

(** X17: Caja has no executable of its own and inherits the one of
    Nautilus, so probing Caja gives the answer for Nautilus, in every
    world.  The base class, the KDE file manager, PCManFM and Thunar
    probe [/bin/false]: where that program exits with a status other
    than 0, they are reported as not installed. *)
Theorem is_installed_inherited_executable (w : world) :
  is_installed Caja w = is_installed Nautilus w /\
  (forall self returncode,
     In self [BaseFileManager; KdefileManager; PcManFm; Thunar] ->
     processes w ["/bin/false"; "--version"] = Exited returncode ->
     returncode <> 0%Z ->
     fst (is_installed self w) = Ok false).
Proof.
  split; [reflexivity|].
  intros self rc Hin Hp Hrc. rewrite is_installed_eq. simpl.
  assert (E : executable self = "/bin/false")
    by (destruct Hin as [<-|[<-|[<-|[<-|[]]]]]; reflexivity).
  rewrite E, Hp. simpl. f_equal. apply Z.eqb_neq. assumption.
Qed.

(** X20: the help texts and the templates agree.  A key has a help
    text in [HELP] exactly when the action template of some file
    manager requires it: every key that [required_keys] can return can
    be explained to the user, and no help text is without use. *)
Theorem help_keys_are_required_keys (key : string) :
  is_Some (HELP !! key) <-> exists self, In key (required_keys self).
Proof.
  split.
  - intros [v Hv]. unfold HELP in Hv.
    repeat (apply lookup_insert_Some in Hv as [[<- _]|[_ Hv]];
            [first [exists Nemo; vm_compute; tauto
                   | exists KdefileManager; vm_compute; tauto]|]).
    apply lookup_singleton_Some in Hv as [<- _].
    exists KdefileManager; vm_compute; tauto.
  - intros [self H]. destruct self; vm_compute in H;
      repeat (destruct H as [<-|H]; [vm_compute; eexists; reflexivity|]);
      destruct H.
Qed.

(** X21: [required_keys] appends a key for every placeholder it meets
    and removes no repetition.  The list it returns is free of
    repetitions for every file manager except the KDE file manager,
    whose template names [identifier] twice. *)
Theorem required_keys_repeated (self : file_manager) :
  NoDup (required_keys self) <-> self <> KdefileManager.
Proof.
  split.
  - intros H ->. vm_compute in H.
    inversion H as [|k1 l1 _ Hrest]. inversion Hrest as [|k2 l2 Hnotin _].
    apply Hnotin. left.
  - intros H. destruct self; try congruence; vm_compute;
      repeat (apply NoDup_cons_2 || apply NoDup_nil_2);
      rewrite ?elem_of_cons, ?elem_of_nil; intuition discriminate.
Qed.

(** ** Renaming there and back, and names that are paths *)

Module FSFacts3.
Import FS.

Lemma is_dir_real fs p : lstat fs p = Some Directory -> is_dir fs p = true.
Proof.
  intros H. unfold is_dir, stat. rewrite realpath_no_link by congruence.
  rewrite H. reflexivity.
Qed.

(** Moving an entry does not touch the shorter paths. *)
Lemma lstat_move_short fs src dst p :
  length p < length src -> length p < length dst ->
  lstat (move src dst fs) p = lstat fs p.
Proof.
  intros Ls Ld. induction fs as [|[q n] fs IH]; [reflexivity|].
  rewrite lstat_move_cons. simpl. rewrite IH.
  destruct (decide (q = p)) as [->|N].
  - rewrite decide_True; [reflexivity|].
    unfold rebase. rewrite bool_decide_eq_false_2; [reflexivity|].
    intros [r E]. apply (f_equal length) in E. rewrite length_app in E. lia.
  - rewrite decide_False; [reflexivity|].
    unfold rebase. destruct (bool_decide (src `prefix_of` q)) eqn:P; [|assumption].
    intros E. apply (f_equal length) in E. rewrite length_app in E. lia.
Qed.

End FSFacts3.
Import FSFacts3.

(** The call that renames, as an equation. *)
Lemma install_script_rename_step self src options w dir display_name old_name others :
  scripts_path self = Some dir ->
  FS.is_dir (files w) (config_path self) = true ->
  FS.is_dir (files w) dir = true ->
  options !! "display_name" = Some (VStr display_name) ->
  Path.is_name display_name = true ->
  get_flag options "force_rename_existing" = true ->
  links_in (files w) dir src = (dir ++ [old_name]) :: others ->
  FS.lstat (files w) (dir ++ [display_name]) = None ->
  exists evs,
    install_script self src options w
    = (Ok tt,
       World (FS.move (dir ++ [old_name]) (dir ++ [display_name]) (files w))
         (processes w) (events w ++ evs)).
Proof.
  intros Hs Hc Hd Hn Hname Hf Hu Hfree.
  pose proof (scripts_dir_nonempty _ _ Hs) as Hne.
  assert (Hin : In (dir ++ [old_name]) (links_in (files w) dir src))
    by (rewrite Hu; left; reflexivity).
  apply filter_In in Hin as [_ Hold]. apply links_to_lstat in Hold.
  rewrite (install_script_start self src options w dir display_name) by assumption.
  simpl. rewrite (exists_absent _ _ Hfree).
  rewrite scan_entries_eq. rewrite Hf. simpl.
  rewrite (find_filter_head _ _ _ _ Hu).
  rewrite (rename_to_free _ _ _ _ _ Hne Hd Hold Hfree). simpl.
  eexists. rewrite <- !app_assoc. reflexivity.
Qed.

(** X18: renaming there and back.  Let the configuration directory
    and the scripts directory be directories proper (not links to
    directories), [a] and [b] plain names, the source script linked
    exactly once in the scripts directory, as [a], and nothing at [b].
    Then a call with [force_rename_existing] and the display name [b],
    followed by one with [force_rename_existing] and the display name
    [a], both return normally; in between the only link to the source
    script is [b], and afterwards the directory lists the same entries
    as at the start, each with the content it had. *)
Theorem install_script_rename_round_trip
    (self : file_manager) (src : path) (there back : kwargs) (w : world)
    (dir : path) (a b : string) :
  scripts_path self = Some dir ->
  FS.lstat (files w) (config_path self) = Some Directory ->
  FS.lstat (files w) dir = Some Directory ->
  there !! "display_name" = Some (VStr b) ->
  back !! "display_name" = Some (VStr a) ->
  Path.is_name a = true -> Path.is_name b = true ->
  get_flag there "force_rename_existing" = true ->
  get_flag back "force_rename_existing" = true ->
  links_in (files w) dir src = [dir ++ [a]] ->
  FS.lstat (files w) (dir ++ [b]) = None ->
  exists w1 w2,
    install_script self src there w = (Ok tt, w1) /\
    install_script self src back w1 = (Ok tt, w2) /\
    links_in (files w1) dir src = [dir ++ [b]] /\
    FS.glob (files w2) dir = FS.glob (files w) dir /\
    (forall x, FS.lstat (files w2) (dir ++ [x]) = FS.lstat (files w) (dir ++ [x])).
Proof.
  intros Hs Hc Hd Hnb Hna Ha Hb Hfb Hfa Hu Hfree.
  pose proof (scripts_dir_nonempty _ _ Hs) as Hne.
  assert (Hlen : length (config_path self) < length dir).
  { apply scripts_path_family in Hs as [_ ->]. rewrite length_app. simpl. lia. }
  assert (Hin : In (dir ++ [a]) (links_in (files w) dir src))
    by (rewrite Hu; left; reflexivity).
  apply filter_In in Hin as [_ Hold]. apply links_to_lstat in Hold.
  assert (Hab : a <> b) by congruence.
  assert (L : forall x y, length (dir ++ [x]) = length (dir ++ [y]))
    by (intros; rewrite !length_app; reflexivity).
  set (fs1 := FS.move (dir ++ [a]) (dir ++ [b]) (files w)).
  assert (S1 : forall x, FS.lstat fs1 (dir ++ [x]) =
                 if decide (dir ++ [x] = dir ++ [b]) then FS.lstat (files w) (dir ++ [a])
                 else if decide (dir ++ [x] = dir ++ [a]) then None
                 else FS.lstat (files w) (dir ++ [x])).
  { intros x. apply lstat_move; auto using snoc_neq. }
  assert (Hfree1 : FS.lstat fs1 (dir ++ [a]) = None).
  { rewrite S1. rewrite decide_False by (apply snoc_neq; assumption).
    rewrite decide_True by reflexivity. reflexivity. }
  assert (Hu1 : links_in fs1 dir src = [dir ++ [b]]).
  { unfold fs1. rewrite links_in_move by assumption. rewrite Hu. simpl.
    rewrite rebase_self. reflexivity. }
  assert (Hc1 : FS.is_dir fs1 (config_path self) = true).
  { apply is_dir_real. unfold fs1. rewrite lstat_move_short; [assumption| |];
      rewrite length_app; simpl; lia. }
  assert (Hd1 : FS.is_dir fs1 dir = true).
  { apply is_dir_real. unfold fs1. rewrite lstat_move_short; [assumption| |];
      rewrite length_app; simpl; lia. }
  destruct (install_script_rename_step self src there w dir b a []
              Hs (is_dir_real _ _ Hc) (is_dir_real _ _ Hd) Hnb Hb Hfb Hu Hfree)
    as [evs1 E1].
  fold fs1 in E1.
  destruct (install_script_rename_step self src back
              (World fs1 (processes w) (events w ++ evs1)) dir a b []
              Hs Hc1 Hd1 Hna Ha Hfa Hu1 Hfree1)
    as [evs2 E2].
  simpl in E2.
  eexists _, _. split; [exact E1|]. split; [exact E2|]. simpl.
  split; [assumption|].
  split.
  - rewrite glob_move by assumption. unfold fs1. rewrite glob_move by assumption.
    rewrite map_map. rewrite <- (map_id (FS.glob (files w) dir)) at 2.
    apply map_ext_in. intros k Hk.
    assert (Hkb : k <> dir ++ [b]).
    { intros ->. apply In_glob_keys in Hk. apply lstat_None_In in Hfree. contradiction. }
    apply glob_inv in Hk as [x ->]; [|assumption].
    destruct (decide (x = a)) as [->|N].
    + rewrite rebase_self. apply rebase_self.
    + rewrite (rebase_same_length (dir ++ [a])) by apply L.
      rewrite decide_False by (apply snoc_neq; assumption).
      rewrite rebase_same_length by apply L. rewrite decide_False by assumption.
      reflexivity.
  - intros x. rewrite lstat_move; auto using snoc_neq.
    destruct (decide (x = a)) as [->|Na].
    + rewrite decide_True by reflexivity. rewrite S1.
      rewrite decide_True by reflexivity. reflexivity.
    + rewrite decide_False by (apply snoc_neq; assumption).
      destruct (decide (x = b)) as [->|Nb].
      * rewrite decide_True by reflexivity. symmetry. assumption.
      * rewrite decide_False by (apply snoc_neq; assumption). rewrite S1.
        rewrite decide_False by (apply snoc_neq; assumption).
        rewrite decide_False by (apply snoc_neq; assumption). reflexivity.
Qed.


(** ** The properties above at work

    Each of the properties that has a condition is applied here to the
    sample home directory or one of its variations. *)

(** The script is linked twice already, and is installed a third time,
    without force: two warnings, one more link. *)
Lemma install_script_creates_link_witness :
  exists w' evs,
    install_script Nemo Sample.script Sample.batch_rename
      (Sample.world_of Cases.home_two_links) = (Ok tt, w') /\
    files w' = Cases.home_two_links
               ++ [(Sample.nemo_scripts ++ ["Batch Rename"], Symlink Sample.script)] /\
    processes w' = Sample.nothing_installed /\
    events w' = [] ++ evs /\
    logged_warnings evs
    = map already_linked (links_in Cases.home_two_links Sample.nemo_scripts Sample.script) /\
    last evs = Some (FileSystem (SSymlink Sample.script
                                   (Sample.nemo_scripts ++ ["Batch Rename"]))).
Proof.
  refine (install_script_creates_link Nemo Sample.script Sample.batch_rename
            (Sample.world_of Cases.home_two_links) Sample.nemo_scripts "Batch Rename"
            _ _ _ _ _ _ _);
    [vm_compute; reflexivity .. | left; vm_compute; reflexivity | vm_compute; reflexivity].
Defined.

(** The same with [force_rename_existing]: [Rename] becomes
    [Batch Rename], and [Rename 2] stays. *)
Lemma install_script_renames_first_link_witness :
  exists w' evs,
    install_script Nemo Sample.script Sample.batch_rename_forced
      (Sample.world_of Cases.home_two_links) = (Ok tt, w') /\
    files w' = FS.move (Sample.nemo_scripts ++ ["Rename"])
                 (Sample.nemo_scripts ++ ["Batch Rename"]) Cases.home_two_links /\
    links_in (files w') Sample.nemo_scripts Sample.script
    = [Sample.nemo_scripts ++ ["Batch Rename"]; Sample.nemo_scripts ++ ["Rename 2"]] /\
    (forall x, x <> "Rename" -> x <> "Batch Rename" ->
       FS.lstat (files w') (Sample.nemo_scripts ++ [x])
       = FS.lstat Cases.home_two_links (Sample.nemo_scripts ++ [x])) /\
    events w' = [] ++ evs /\
    logged_warnings evs = [] /\
    forallb (fun e => negb (is_symlink_call e)) evs = true.
Proof.
  refine (install_script_renames_first_link Nemo Sample.script Sample.batch_rename_forced
            (Sample.world_of Cases.home_two_links) Sample.nemo_scripts "Batch Rename"
            _ _ _ _ _ "Rename" [Sample.nemo_scripts ++ ["Rename 2"]] _ _ _ _);
    try (vm_compute; reflexivity).
  vm_compute. intros [E|[]]. discriminate E.
Defined.


(** Nemo without a scripts directory, and no force. *)
Lemma install_script_directory_not_available_witness :
  install_script Nemo Sample.script Sample.batch_rename
    (Sample.world_of Cases.home_bare)
  = (Raise (not_available Sample.nemo_scripts),
     World Cases.home_bare Sample.nothing_installed
       ([] ++ [FileSystem (SIsDir (config_path Nemo));
               FileSystem (SIsDir Sample.nemo_scripts)])).
Proof.
  refine (install_script_directory_not_available Nemo Sample.script Sample.batch_rename
            (Sample.world_of Cases.home_bare) Sample.nemo_scripts _ _ _ _);
    vm_compute; reflexivity.
Defined.

(** The same with [force_create_directories]. *)
Lemma install_script_creates_directory_witness :
  install_script Nemo Sample.script Cases.create_dirs
    (Sample.world_of Cases.home_bare)
  = (Ok tt,
     World (Cases.home_bare
            ++ [(Sample.nemo_scripts, Directory);
                (Sample.nemo_scripts ++ ["Batch Rename"], Symlink Sample.script)])
       Sample.nothing_installed
       ([] ++ [FileSystem (SIsDir (config_path Nemo));
               FileSystem (SIsDir Sample.nemo_scripts);
               FileSystem (SMkdir Sample.nemo_scripts);
               Logging DEBUG ("Target path: "
                              +:+ Path.str (Sample.nemo_scripts ++ ["Batch Rename"]));
               FileSystem (SExists (Sample.nemo_scripts ++ ["Batch Rename"]));
               FileSystem (SGlob Sample.nemo_scripts);
               FileSystem (SSymlink Sample.script
                             (Sample.nemo_scripts ++ ["Batch Rename"]))])).
Proof.
  refine (install_script_creates_directory Nemo Sample.script Cases.create_dirs
            (Sample.world_of Cases.home_bare) Sample.nemo_scripts _ _
            "Batch Rename" _ _ _ _ _);
    vm_compute; reflexivity.
Defined.

(** A regular file is where the scripts directory should be. *)
Lemma install_script_directory_blocked_witness :
  install_script Nemo Sample.script Cases.create_dirs
    (Sample.world_of Cases.home_blocked)
  = (Raise (OSError FileExistsError Sample.nemo_scripts),
     World Cases.home_blocked Sample.nothing_installed
       ([] ++ [FileSystem (SIsDir (config_path Nemo));
               FileSystem (SIsDir Sample.nemo_scripts);
               FileSystem (SMkdir Sample.nemo_scripts)])).
Proof.
  refine (install_script_directory_blocked Nemo Sample.script Cases.create_dirs
            (Sample.world_of Cases.home_blocked) Sample.nemo_scripts _ _
            (File "") _ _ _);
    vm_compute; reflexivity.
Defined.

(** No display name, but [force_create_directories]. *)
Lemma install_script_directory_left_behind_witness :
  exists w',
    install_script Nemo Sample.script Cases.only_create
      (Sample.world_of Cases.home_bare) = (Raise (KeyError "display_name"), w') /\
    files w' = Cases.home_bare ++ [(Sample.nemo_scripts, Directory)] /\
    FS.is_dir Cases.home_bare Sample.nemo_scripts = false /\
    FS.is_dir (files w') Sample.nemo_scripts = true.
Proof.
  refine (install_script_directory_left_behind Nemo Sample.script Cases.only_create
            (Sample.world_of Cases.home_bare) Sample.nemo_scripts _ _ _ _ _);
    vm_compute; reflexivity.
Defined.

(** Caja is not in the sample home directory. *)
Lemma installers_need_configuration_directory_witness :
  (contains (capabilities Caja) SCRIPTS = true ->
   install_script Caja Sample.script Sample.batch_rename (Sample.world_of Sample.home)
   = (Raise (not_installed Caja),
      World Sample.home Sample.nothing_installed
        ([] ++ [FileSystem (SIsDir (config_path Caja))]))) /\
  (Caja = Nemo ->
   install_action Caja Sample.script Sample.batch_rename (Sample.world_of Sample.home)
   = (Raise (not_installed Caja),
      World Sample.home Sample.nothing_installed
        ([] ++ [FileSystem (SIsDir (config_path Caja))]))).
Proof.
  refine (installers_need_configuration_directory Caja Sample.script Sample.batch_rename
            (Sample.world_of Sample.home) _);
    vm_compute; reflexivity.
Defined.

(** The failure of the call without a display name. *)
Lemma install_script_failure_leaves_files_witness :
  processes (snd (install_script Nemo Sample.script Cases.only_create
                    (Sample.world_of Cases.home_bare)))
  = Sample.nothing_installed /\
  (files (snd (install_script Nemo Sample.script Cases.only_create
                 (Sample.world_of Cases.home_bare)))
   = Cases.home_bare \/
   exists dir,
     scripts_path Nemo = Some dir /\
     FS.is_dir Cases.home_bare dir = false /\
     get_flag Cases.only_create "force_create_directories" = true /\
     files (snd (install_script Nemo Sample.script Cases.only_create
                   (Sample.world_of Cases.home_bare)))
     = Cases.home_bare ++ [(dir, Directory)]).
Proof.
  refine (install_script_failure_leaves_files Nemo Sample.script Cases.only_create
            (Sample.world_of Cases.home_bare) (KeyError "display_name") _ _);
    vm_compute; reflexivity.
Defined.

(** The plain installation in the sample home directory. *)
Lemma install_script_success_links_target_witness :
  exists dir s,
    scripts_path Nemo = Some dir /\
    Sample.batch_rename !! "display_name" = Some (VStr s) /\
    FS.is_dir Sample.home (config_path Nemo) = true /\
    FS.readlink
      (files (snd (install_script Nemo Sample.script Sample.batch_rename
                     (Sample.world_of Sample.home))))
      (Path.joinpath dir s) = Ok Sample.script /\
    processes (snd (install_script Nemo Sample.script Sample.batch_rename
                      (Sample.world_of Sample.home)))
    = Sample.nothing_installed.
Proof.
  refine (install_script_success_links_target Nemo Sample.script Sample.batch_rename
            (Sample.world_of Sample.home) _ _);
    vm_compute; reflexivity.
Defined.

(** The action of the sample, written twice. *)
Lemma install_action_twice_witness :
  exists w2,
    install_action Nemo Sample.script Sample.action
      (snd (install_action Nemo Sample.script Sample.action
              (Sample.world_of Sample.home))) = (Ok tt, w2) /\
    files w2
    = files (snd (install_action Nemo Sample.script Sample.action
                    (Sample.world_of Sample.home))).
Proof.
  refine (install_action_twice Sample.script Sample.action
            (Sample.world_of Sample.home) _ _);
    vm_compute; reflexivity.
Defined.

(** An action file of an earlier installation is replaced. *)
Lemma install_action_overwrites_witness :
  exists w',
    install_action Nemo Sample.script Sample.action
      (Sample.world_of Cases.home_action) = (Ok tt, w') /\
    FS.lstat (files w')
      ((config_path Nemo ++ ["actions"]) ++ ["Batch Rename.nemo_action"])
    = Some (File (nemo_action Sample.action)) /\
    (forall p,
       p <> (config_path Nemo ++ ["actions"]) ++ ["Batch Rename.nemo_action"] ->
       FS.lstat (files w') p = FS.lstat Cases.home_action p) /\
    length (files w') = length Cases.home_action.
Proof.
  refine (install_action_overwrites Sample.script Sample.action
            (Sample.world_of Cases.home_action) (VStr "Batch Rename") _ _ _
            "old" _ _);
    vm_compute; reflexivity.
Defined.

(** Nemo without an actions directory. *)
Lemma install_action_without_directory_witness :
  install_action Nemo Sample.script Sample.action (Sample.world_of Cases.home_bare)
  = (Raise (OSError FileNotFoundError
              ((config_path Nemo ++ ["actions"]) ++ ["Batch Rename.nemo_action"])),
     World Cases.home_bare Sample.nothing_installed
       ([] ++ [FileSystem (SIsDir (config_path Nemo));
               FileSystem (SWrite ((config_path Nemo ++ ["actions"])
                                   ++ ["Batch Rename.nemo_action"])
                             (nemo_action Sample.action))])).
Proof.
  refine (install_action_without_directory Sample.script Sample.action
            (Sample.world_of Cases.home_bare) (VStr "Batch Rename") _ _ _ _ _);
    vm_compute; reflexivity.
Defined.

(** The options of a script installation make no difference to the
    Nemo action file. *)
Lemma required_keys_determine_rendering_witness :
  Template.safe_substitute (action_template Nemo) Sample.action
  = Template.safe_substitute (action_template Nemo)
      (<["display_name" := VStr "Batch Rename"]> Sample.action).
Proof.
  refine (required_keys_determine_rendering Nemo Sample.action
            (<["display_name" := VStr "Batch Rename"]> Sample.action) _).
  intros key H. vm_compute in H.
  destruct H as [<-|[<-|[<-|[<-|[]]]]]; vm_compute; reflexivity.
Defined.

(** PCManFM is probed with [/bin/false]. *)
Lemma is_installed_inherited_executable_witness :
  fst (is_installed PcManFm (World [] Cases.only_false [])) = Ok false.
Proof.
  refine (proj2 (is_installed_inherited_executable (World [] Cases.only_false []))
            PcManFm 1%Z _ _ _).
  - right; right; left; reflexivity.
  - vm_compute; reflexivity.
  - discriminate.
Defined.

(** [Rename] becomes [Batch Rename], and [Rename] again. *)
Lemma install_script_rename_round_trip_witness :
  exists w1 w2,
    install_script Nemo Sample.script Sample.batch_rename_forced
      (Sample.world_of Sample.home_linked) = (Ok tt, w1) /\
    install_script Nemo Sample.script Cases.rename_forced w1 = (Ok tt, w2) /\
    links_in (files w1) Sample.nemo_scripts Sample.script
    = [Sample.nemo_scripts ++ ["Batch Rename"]] /\
    FS.glob (files w2) Sample.nemo_scripts
    = FS.glob Sample.home_linked Sample.nemo_scripts /\
    forall x, FS.lstat (files w2) (Sample.nemo_scripts ++ [x])
              = FS.lstat Sample.home_linked (Sample.nemo_scripts ++ [x]).
Proof.
  refine (install_script_rename_round_trip Nemo Sample.script
            Sample.batch_rename_forced Cases.rename_forced
            (Sample.world_of Sample.home_linked) Sample.nemo_scripts
            "Rename" "Batch Rename" _ _ _ _ _ _ _ _ _ _ _);
    vm_compute; reflexivity.
Defined.

